(** * Text selection tracking and follow-up control

    A shallow embedding of
      - [frontend/src/hooks/useTextSelection.js]  (the [useTextSelection] hook)
      - [frontend/src/components/FollowUpButton/index.jsx]
    together with the parts of the browser that the two files talk to: JavaScript
    strings, DOM nodes, live [Range] objects, the document selection and timers. *)

From Stdlib Require Import ZArith NArith String Ascii PrimFloat.
From stdpp Require Import gmap strings list.

Local Open Scope N_scope.

(** ** JavaScript strings

    A JavaScript string is a sequence of UTF-16 code units; [length] counts code
    units, and a regular expression with the [u] flag reads code points. *)

Module JSString.

Definition t := list N.

Definition lit (s : string) : t :=
  map (fun a => N.of_nat (nat_of_ascii a)) (list_ascii_of_string s).

(** [WhiteSpace] and [LineTerminator] of ECMAScript: what [String.prototype.trim]
    strips and what the class escape [\s] matches. *)
Definition isWhiteSpace (c : N) : bool :=
  (c =? 9) || (c =? 10) || (c =? 11) || (c =? 12) || (c =? 13) || (c =? 32)
  || (c =? 160) || (c =? 5760) || ((8192 <=? c) && (c <=? 8202))
  || (c =? 8232) || (c =? 8233) || (c =? 8239) || (c =? 8287)
  || (c =? 12288) || (c =? 65279).

(** Unicode 14 code points of General_Category P (Pc, Pd, Ps, Pe, Pi, Pf, Po),
    as inclusive ranges: the property escape [\p{P}]. *)
Definition punctuationRanges : list (N * N) :=
  [ (33, 35); (37, 42); (44, 47); (58, 59); (63, 64); (91, 93); (95, 95); (123,
    123); (125, 125); (161, 161); (167, 167); (171, 171); (182, 183); (187,
    187); (191, 191); (894, 894); (903, 903); (1370, 1375); (1417, 1418); (1470,
    1470); (1472, 1472); (1475, 1475); (1478, 1478); (1523, 1524); (1545, 1546);
    (1548, 1549); (1563, 1563); (1565, 1567); (1642, 1645); (1748, 1748); (1792,
    1805); (2039, 2041); (2096, 2110); (2142, 2142); (2404, 2405); (2416, 2416);
    (2557, 2557); (2678, 2678); (2800, 2800); (3191, 3191); (3204, 3204); (3572,
    3572); (3663, 3663); (3674, 3675); (3844, 3858); (3860, 3860); (3898, 3901);
    (3973, 3973); (4048, 4052); (4057, 4058); (4170, 4175); (4347, 4347); (4960,
    4968); (5120, 5120); (5742, 5742); (5787, 5788); (5867, 5869); (5941, 5942);
    (6100, 6102); (6104, 6106); (6144, 6154); (6468, 6469); (6686, 6687); (6816,
    6822); (6824, 6829); (7002, 7008); (7037, 7038); (7164, 7167); (7227, 7231);
    (7294, 7295); (7360, 7367); (7379, 7379); (8208, 8231); (8240, 8259); (8261,
    8273); (8275, 8286); (8317, 8318); (8333, 8334); (8968, 8971); (9001, 9002);
    (10088, 10101); (10181, 10182); (10214, 10223); (10627, 10648); (10712,
    10715); (10748, 10749); (11513, 11516); (11518, 11519); (11632, 11632);
    (11776, 11822); (11824, 11855); (11858, 11869); (12289, 12291); (12296,
    12305); (12308, 12319); (12336, 12336); (12349, 12349); (12448, 12448);
    (12539, 12539); (42238, 42239); (42509, 42511); (42611, 42611); (42622,
    42622); (42738, 42743); (43124, 43127); (43214, 43215); (43256, 43258);
    (43260, 43260); (43310, 43311); (43359, 43359); (43457, 43469); (43486,
    43487); (43612, 43615); (43742, 43743); (43760, 43761); (44011, 44011);
    (64830, 64831); (65040, 65049); (65072, 65106); (65108, 65121); (65123,
    65123); (65128, 65128); (65130, 65131); (65281, 65283); (65285, 65290);
    (65292, 65295); (65306, 65307); (65311, 65312); (65339, 65341); (65343,
    65343); (65371, 65371); (65373, 65373); (65375, 65381); (65792, 65794);
    (66463, 66463); (66512, 66512); (66927, 66927); (67671, 67671); (67871,
    67871); (67903, 67903); (68176, 68184); (68223, 68223); (68336, 68342);
    (68409, 68415); (68505, 68508); (69293, 69293); (69461, 69465); (69510,
    69513); (69703, 69709); (69819, 69820); (69822, 69825); (69952, 69955);
    (70004, 70005); (70085, 70088); (70093, 70093); (70107, 70107); (70109,
    70111); (70200, 70205); (70313, 70313); (70731, 70735); (70746, 70747);
    (70749, 70749); (70854, 70854); (71105, 71127); (71233, 71235); (71264,
    71276); (71353, 71353); (71484, 71486); (71739, 71739); (72004, 72006);
    (72162, 72162); (72255, 72262); (72346, 72348); (72350, 72354); (72769,
    72773); (72816, 72817); (73463, 73464); (73727, 73727); (74864, 74868);
    (77809, 77810); (92782, 92783); (92917, 92917); (92983, 92987); (92996,
    92996); (93847, 93850); (94178, 94178); (113823, 113823); (121479, 121483);
    (125278, 125279) ].

Definition isPunctuation (cp : N) : bool :=
  existsb (fun r => (fst r <=? cp) && (cp <=? snd r)) punctuationRanges.

Fixpoint trimStart (s : t) : t :=
  match s with
  | [] => []
  | c :: s' => if isWhiteSpace c then trimStart s' else s
  end.

Fixpoint trimEnd (s : t) : t :=
  match s with
  | [] => []
  | c :: s' =>
      match trimEnd s' with
      | [] => if isWhiteSpace c then [] else [c]
      | r => c :: r
      end
  end.

(** [s.trim()] *)
Definition trim (s : t) : t := trimEnd (trimStart s).

Definition isLeadSurrogate (c : N) : bool := (55296 <=? c) && (c <=? 56319).
Definition isTrailSurrogate (c : N) : bool := (56320 <=? c) && (c <=? 57343).

(** The code points a [u]-flag pattern sees: a lead surrogate followed by a trail
    surrogate is one code point, any other code unit stands for itself. *)
Fixpoint codePoints (s : t) : list N :=
  match s with
  | [] => []
  | hi :: rest =>
      match rest with
      | lo :: rest' =>
          if isLeadSurrogate hi && isTrailSurrogate lo
          then (65536 + (hi - 55296) * 1024 + (lo - 56320)) :: codePoints rest'
          else hi :: codePoints rest
      | [] => [hi]
      end
  end.

(** [/^[\s\p{P}]*$/u.test(s)] *)
Definition onlySpaceOrPunctuation (s : t) : bool :=
  forallb (fun cp => isWhiteSpace cp || isPunctuation cp) (codePoints s).

(** Truthiness of a string: only the empty string is falsy. *)
Definition truthy (s : t) : bool :=
  match s with [] => false | _ => true end.

End JSString.

(** ** Exceptions

    A handler either returns or throws; nothing in the hook catches. *)

Inductive JSError :=
  | TypeError
  | IndexSizeError
  | Raised (message : string).

Inductive Result (A : Type) :=
  | Ok (a : A)
  | Throw (e : JSError).
Arguments Ok {A} a.
Arguments Throw {A} e.

#[global] Instance Result_ret : MRet Result := fun A a => Ok a.
#[global] Instance Result_bind : MBind Result := fun A B k m =>
  match m with
  | Ok a => k a
  | Throw e => Throw e
  end.

(** ** DOM nodes

    A node is known to the hook through three things: its own subtree (for
    [querySelector]), its chain of ancestors (for [parentElement] and [closest])
    and its identity (for [===]). *)

Module Dom.

#[warnings="-register-all"]
Inductive Tree :=
  | TNode (nodeId : positive) (nodeType : N)
          (attributes : list (string * string)) (classList : list string)
          (childNodes : list Tree).

Definition treeId (t : Tree) : positive := let 'TNode i _ _ _ _ := t in i.
Definition treeType (t : Tree) : N := let 'TNode _ ty _ _ _ := t in ty.
Definition treeAttributes (t : Tree) := let 'TNode _ _ a _ _ := t in a.
Definition treeClassList (t : Tree) := let 'TNode _ _ _ c _ := t in c.
Definition treeChildNodes (t : Tree) := let 'TNode _ _ _ _ k := t in k.

Definition ELEMENT_NODE : N := 1.
Definition TEXT_NODE : N := 3.
Definition COMMENT_NODE : N := 8.
Definition DOCUMENT_NODE : N := 9.
Definition DOCUMENT_FRAGMENT_NODE : N := 11.

(** [ancestors]: parent first, root last. *)
Record Node := { self : Tree; ancestors : list Tree }.

Definition nodeId (n : Node) : positive := treeId (self n).
Definition nodeType (n : Node) : N := treeType (self n).
Definition isElement (n : Node) : bool := nodeType n =? ELEMENT_NODE.

Definition parentNode (n : Node) : option Node :=
  match ancestors n with
  | [] => None
  | p :: ps => Some {| self := p; ancestors := ps |}
  end.

(** [node.parentElement]: the parent when it is an element, otherwise null. *)
Definition parentElement (n : Node) : option Node :=
  match parentNode n with
  | Some p => if isElement p then Some p else None
  | None => None
  end.

(** The two selector shapes of the hook: [[name="value"]] and [.name]. *)
Inductive Selector :=
  | AttrEquals (name value : string)
  | ClassName (name : string).

Fixpoint getAttribute (name : string) (attrs : list (string * string)) : option string :=
  match attrs with
  | [] => None
  | (k, v) :: rest => if String.eqb k name then Some v else getAttribute name rest
  end.

Definition matches (sel : Selector) (t : Tree) : bool :=
  (treeType t =? ELEMENT_NODE) &&
  match sel with
  | AttrEquals name value =>
      match getAttribute name (treeAttributes t) with
      | Some v => String.eqb v value
      | None => false
      end
  | ClassName name => existsb (String.eqb name) (treeClassList t)
  end.

(** [element.closest(sel)]: the element itself or the nearest ancestor element
    that matches, walking [parentElement]. *)
Fixpoint closestFrom (sel : Selector) (t : Tree) (anc : list Tree) : option Node :=
  if matches sel t then Some {| self := t; ancestors := anc |}
  else match anc with
       | [] => None
       | p :: ps => if treeType p =? ELEMENT_NODE then closestFrom sel p ps else None
       end.

Definition closest (sel : Selector) (n : Node) : option Node :=
  closestFrom sel (self n) (ancestors n).

(** [element.querySelector(sel)]: the first matching descendant in tree order;
    [anc] is the chain of [t]'s ancestors. *)
Fixpoint queryIn (sel : Selector) (anc : list Tree) (t : Tree) : option Node :=
  match t with
  | TNode _ _ _ _ kids =>
      (fix go (l : list Tree) : option Node :=
         match l with
         | [] => None
         | k :: l' =>
             if matches sel k then Some {| self := k; ancestors := t :: anc |}
             else match queryIn sel (t :: anc) k with
                  | Some r => Some r
                  | None => go l'
                  end
         end) kids
  end.

Definition querySelector (sel : Selector) (n : Node) : option Node :=
  queryIn sel (ancestors n) (self n).

(** [a === b] on values that are a node or null. *)
Definition strictEq (a b : option Node) : bool :=
  match a, b with
  | None, None => true
  | Some x, Some y => Pos.eqb (nodeId x) (nodeId y)
  | _, _ => false
  end.

(** [receiver.closest(sel)] where the receiver may be null or a node that is not
    an element: reading a property of null throws, and [closest] is a method of
    [Element] only, so calling it on a document, fragment or comment throws. *)
Definition callClosest (receiver : option Node) (sel : Selector) : Result (option Node) :=
  match receiver with
  | None => Throw TypeError
  | Some n => if isElement n then Ok (closest sel n) else Throw TypeError
  end.

(** *** Removing a node

    [detach n t]: [t] without the subtrees rooted at node [n]. *)
Fixpoint detach (n : positive) (t : Tree) : Tree :=
  match t with
  | TNode i ty a c kids =>
      TNode i ty a c
        ((fix go (l : list Tree) : list Tree :=
            match l with
            | [] => []
            | k :: l' => if Pos.eqb (treeId k) n then go l' else detach n k :: go l'
            end) kids)
  end.

(** The part of a chain (node first, root last) above node [n], when [n] is on
    the chain. *)
Fixpoint above (n : positive) (chain : list Tree) : option (list Tree) :=
  match chain with
  | [] => None
  | t :: rest => if Pos.eqb (treeId t) n then Some rest else above n rest
  end.

(** Where a boundary point of a live range is after node [n] was removed from its
    parent (DOM Standard, "remove", live range steps): a boundary inside the
    removed subtree moves to the parent of [n]; any other node only loses [n]
    from the subtrees it sees. *)
Definition afterRemove (n : positive) (node : Node) : Node :=
  match above n (self node :: ancestors node) with
  | Some (p :: ps) => {| self := detach n p; ancestors := map (detach n) ps |}
  | Some [] => node
  | None => {| self := detach n (self node); ancestors := map (detach n) (ancestors node) |}
  end.

End Dom.

(** ** Rectangles and ranges *)

(** The six numbers the hook copies from a [DOMRect]. They are JavaScript
    numbers: IEEE 754 doubles, here the primitive binary64 floats. *)
Module Rect.
Record t := {
  top : float; left : float; right : float; bottom : float;
  width : float; height : float;
}.
End Rect.

(** What the hook reads from a DOM [Range]: its three containers and the
    rectangle [getBoundingClientRect()] returns for it in the current layout. *)
Record Range := {
  startContainer : Dom.Node;
  endContainer : Dom.Node;
  commonAncestorContainer : Dom.Node;
  getBoundingClientRect : Rect.t;
}.

(** ** The validator: [validateSelection] *)

Definition assistantMessage : Dom.Selector := Dom.AttrEquals "data-message-role" "assistant".
Definition followupButton : Dom.Selector := Dom.AttrEquals "data-followup-button" "true".
Definition dotFalling : Dom.Selector := Dom.ClassName "dot-falling".

(** [node.nodeType === Node.TEXT_NODE ? node.parentElement : node] *)
Definition elementOf (node : Dom.Node) : option Dom.Node :=
  if Dom.nodeType node =? Dom.TEXT_NODE then Dom.parentElement node else Some node.

Definition validateSelection (selectedText : JSString.t) (range : option Range) : Result bool :=
  match range with
  | None => Ok false
  | Some range =>
      if negb (JSString.truthy selectedText) then Ok false else
      let trimmedText := JSString.trim selectedText in
      if (length trimmedText <? 5)%nat then Ok false else
      if JSString.onlySpaceOrPunctuation trimmedText then Ok false else
      let container := commonAncestorContainer range in
      let messageElement := elementOf container in
      messageContainer ← Dom.callClosest messageElement assistantMessage;
      match messageContainer with
      | None => Ok false
      | Some message =>
          let isStreaming := Dom.querySelector dotFalling message in
          if bool_decide (is_Some isStreaming) then Ok false else
          let startContainer := elementOf (startContainer range) in
          let endContainer := elementOf (endContainer range) in
          startMessage ← Dom.callClosest startContainer assistantMessage;
          endMessage ← Dom.callClosest endContainer assistantMessage;
          Ok (Dom.strictEq startMessage endMessage
              && Dom.strictEq startMessage messageContainer)
      end
  end.

(** ** The hook's state and the browser around it *)

Record SelectionState := {
  text : JSString.t;
  isValid : bool;
  range : option positive;          (* a reference to a [Range] object, or null *)
  boundingRect : option Rect.t;
}.

Definition emptySelection : SelectionState :=
  {| text := []; isValid := false; range := None; boundingRect := None |}.

Record Timer := { timerId : positive; due : nat }.

(** [setTimeout]/[clearTimeout]: the pending timers, in scheduling order. Time is
    counted in milliseconds. *)
Record Clock := {
  now : nat;
  timers : list Timer;
  nextTimerId : positive;
}.

(** The document: the store of [Range] objects (they are mutable and have
    identity) and what [window.getSelection()] shows: its [toString()] and the
    references to its ranges. *)
Record Document := {
  ranges : gmap positive Range;
  nextRangeId : positive;
  liveText : JSString.t;
  liveRanges : list positive;
}.

(** One mounted [useTextSelection]: [selection] is the React state,
    [selectionTimeoutRef] is [selectionTimeoutRef.current]. *)
Record Hook := {
  selection : SelectionState;
  selectionTimeoutRef : option positive;
}.

Record World := { clock : Clock; document : Document; hook : Hook }.

Definition withClock (c : Clock) (w : World) : World :=
  {| clock := c; document := document w; hook := hook w |}.
Definition withDocument (d : Document) (w : World) : World :=
  {| clock := clock w; document := d; hook := hook w |}.
Definition withHook (h : Hook) (w : World) : World :=
  {| clock := clock w; document := document w; hook := h |}.

(** The state setter returned by [useState]. *)
Definition setSelection (s : SelectionState) (w : World) : World :=
  withHook {| selection := s; selectionTimeoutRef := selectionTimeoutRef (hook w) |} w.

(** [selectionTimeoutRef.current = r] *)
Definition setTimeoutRef (r : option positive) (w : World) : World :=
  withHook {| selection := selection (hook w); selectionTimeoutRef := r |} w.

Definition clearTimeout (id : positive) (w : World) : World :=
  withClock {| now := now (clock w);
               timers := List.filter (fun t => negb (Pos.eqb (timerId t) id)) (timers (clock w));
               nextTimerId := nextTimerId (clock w) |} w.

Definition setTimeout (delay : nat) (w : World) : positive * World :=
  let id := nextTimerId (clock w) in
  (id, withClock {| now := now (clock w);
                    timers := timers (clock w) ++ [{| timerId := id; due := now (clock w) + delay |}];
                    nextTimerId := Pos.succ id |} w).

(** [window.getSelection().removeAllRanges()] *)
Definition removeAllRanges (w : World) : World :=
  withDocument {| ranges := ranges (document w); nextRangeId := nextRangeId (document w);
                  liveText := []; liveRanges := [] |} w.

(** [selection.getRangeAt(0)]: the first range of the selection, by reference. *)
Definition getRangeAt0 (w : World) : Result (positive * Range) :=
  match liveRanges (document w) with
  | [] => Throw IndexSizeError
  | id :: _ =>
      match ranges (document w) !! id with
      | Some r => Ok (id, r)
      | None => Throw IndexSizeError
      end
  end.

(** [range.cloneRange()]: a new [Range] object with the same boundary points. *)
Definition cloneRange (r : Range) (w : World) : positive * World :=
  let id := nextRangeId (document w) in
  (id, withDocument {| ranges := <[id := r]> (ranges (document w));
                       nextRangeId := Pos.succ id;
                       liveText := liveText (document w);
                       liveRanges := liveRanges (document w) |} w).

(** ** The hook's handlers *)

(** [handleSelectionChange]: cancel the pending timer, schedule a new one. *)
Definition handleSelectionChange (w : World) : World :=
  let w1 := match selectionTimeoutRef (hook w) with
            | Some id => clearTimeout id w
            | None => w
            end in
  let '(id, w2) := setTimeout 100 w1 in
  setTimeoutRef (Some id) w2.

(** The callback given to [setTimeout] in [handleSelectionChange]. *)
Definition onSelectionTimeout (w : World) : Result World :=
  let selectedText := liveText (document w) in
  if negb (JSString.truthy selectedText) || (length (liveRanges (document w)) =? 0)%nat
  then Ok (setSelection emptySelection w)
  else
    '(_, range) ← getRangeAt0 w;
    isValid ← validateSelection selectedText (Some range);
    if isValid : bool then
      let rect := getBoundingClientRect range in
      let '(clone, w1) := cloneRange range w in
      Ok (setSelection
            {| text := JSString.trim selectedText;
               isValid := true;
               range := Some clone;
               boundingRect := Some {| Rect.top := Rect.top rect;
                                       Rect.left := Rect.left rect;
                                       Rect.right := Rect.right rect;
                                       Rect.bottom := Rect.bottom rect;
                                       Rect.width := Rect.width rect;
                                       Rect.height := Rect.height rect |} |} w1)
    else Ok (setSelection emptySelection w).

(** [handleClickOutside] for a click whose [e.target] is [target]. *)
Definition handleClickOutside (target : Dom.Node) (w : World) : Result World :=
  messageContainer ← Dom.callClosest (Some target) assistantMessage;
  followupButton ← Dom.callClosest (Some target) followupButton;
  if negb (bool_decide (is_Some messageContainer)) && negb (bool_decide (is_Some followupButton))
  then Ok (setSelection emptySelection (removeAllRanges w))
  else Ok w.

(** [clearSelection] *)
Definition clearSelection (w : World) : World :=
  setSelection emptySelection (removeAllRanges w).

(** The cleanup returned by the effect, run on unmount: the two listeners are
    removed (no [selectionchange] or [click] reaches the hook any more) and the
    pending timer, if any, is cleared. *)
Definition cleanup (w : World) : World :=
  match selectionTimeoutRef (hook w) with
  | Some id => clearTimeout id w
  | None => w
  end.

(** ** Events and runs

    What happens to a mounted hook: the browser changes the selection or the
    document, dispatches [selectionchange] or [click], the owner calls
    [clearSelection], or time passes and due timers fire. *)

Fixpoint allocRanges (rs : list Range) (next : positive) (h : gmap positive Range)
  : list positive * positive * gmap positive Range :=
  match rs with
  | [] => ([], next, h)
  | r :: rs' =>
      let '(ids, next', h') := allocRanges rs' (Pos.succ next) (<[next := r]> h) in
      (next :: ids, next', h')
  end.

(** The selection is replaced: new range objects, new text. *)
Definition select (txt : JSString.t) (rs : list Range) (w : World) : World :=
  let '(ids, next, h) := allocRanges rs (nextRangeId (document w)) (ranges (document w)) in
  withDocument {| ranges := h; nextRangeId := next; liveText := txt; liveRanges := ids |} w.

(** The selection's own range objects are changed in place (extending or
    collapsing the selection). *)
Definition adjustLive (f : Range -> Range) (txt : JSString.t) (w : World) : World :=
  withDocument
    {| ranges := foldr (fun id h => alter f id h) (ranges (document w)) (liveRanges (document w));
       nextRangeId := nextRangeId (document w);
       liveText := txt;
       liveRanges := liveRanges (document w) |} w.

Definition rangeAfterRemove (n : positive) (r : Range) : Range :=
  {| startContainer := Dom.afterRemove n (startContainer r);
     endContainer := Dom.afterRemove n (endContainer r);
     commonAncestorContainer := Dom.afterRemove n (commonAncestorContainer r);
     getBoundingClientRect := getBoundingClientRect r |}.

(** Node [n] is removed from the document: every live range is adjusted. *)
Definition removeNode (n : positive) (w : World) : World :=
  withDocument
    {| ranges := rangeAfterRemove n <$> ranges (document w);
       nextRangeId := nextRangeId (document w);
       liveText := liveText (document w);
       liveRanges := liveRanges (document w) |} w.

Inductive Event :=
  | Select (txt : JSString.t) (rs : list Range)
  | AdjustLive (f : Range -> Range) (txt : JSString.t)
  | RemoveNode (n : positive)
  | SelectionChange
  | Click (target : Dom.Node)
  | Clear
  | Wait (ms : nat).

(** What a reader of [window.getSelection()] sees. *)
Definition readSelection (w : World) : JSString.t * list Range :=
  (liveText (document w), omap (fun id => ranges (document w) !! id) (liveRanges (document w))).

(** A run: the world, one entry in [passes] for every execution of the timer
    callback (with the selection it read), and the exceptions that left a
    handler. *)
Record Trace := {
  world : World;
  passes : list (JSString.t * list Range);
  uncaught : list JSError;
}.

Definition continue (t : Trace) (w : World) : Trace :=
  {| world := w; passes := passes t; uncaught := uncaught t |}.

(** A handler that throws leaves the world as it was: no handler of the hook
    writes anything before its last possible throw. *)
Definition handled (t : Trace) (r : Result World) : Trace :=
  match r with
  | Ok w => continue t w
  | Throw e => {| world := world t; passes := passes t; uncaught := uncaught t ++ [e] |}
  end.

Definition fire (t : Trace) : Trace :=
  handled {| world := world t;
             passes := passes t ++ [readSelection (world t)];
             uncaught := uncaught t |}
          (onSelectionTimeout (world t)).

(** One millisecond passes: the timers that are due leave the pending list. *)
Definition elapse (w : World) : list Timer * World :=
  let now' := S (now (clock w)) in
  (List.filter (fun tm => (due tm <=? now')%nat) (timers (clock w)),
   withClock {| now := now';
                timers := List.filter (fun tm => negb (due tm <=? now')%nat) (timers (clock w));
                nextTimerId := nextTimerId (clock w) |} w).

(** ... and their callbacks run, in scheduling order. *)
Definition tick (t : Trace) : Trace :=
  let '(dueNow, w) := elapse (world t) in
  fold_left (fun t _ => fire t) dueNow (continue t w).

Definition step (t : Trace) (e : Event) : Trace :=
  match e with
  | Select txt rs => continue t (select txt rs (world t))
  | AdjustLive f txt => continue t (adjustLive f txt (world t))
  | RemoveNode n => continue t (removeNode n (world t))
  | SelectionChange => continue t (handleSelectionChange (world t))
  | Click target => handled t (handleClickOutside target (world t))
  | Clear => continue t (clearSelection (world t))
  | Wait ms => Nat.iter ms tick t
  end.

Definition run (es : list Event) (t : Trace) : Trace := fold_left step es t.

(** The hook right after mounting, in a document with no selection. *)
Definition init : Trace :=
  {| world := {| clock := {| now := 0; timers := []; nextTimerId := 1 |};
                 document := {| ranges := ∅; nextRangeId := 1; liveText := []; liveRanges := [] |};
                 hook := {| selection := emptySelection; selectionTimeoutRef := None |} |};
     passes := [];
     uncaught := [] |}.

(** ** The follow-up button: [FollowUpButton] *)

Module FollowUpButton.

Local Open Scope float_scope.

Record Anchor := { top : float; left : float; transform : string }.

(** "Calculate button position": the three [let]s and the two adjustments, in
    double arithmetic. [a > b] is [b < a]; both are false when a side is NaN. *)
Definition position (viewportWidth viewportHeight : float) (boundingRect : Rect.t) : Anchor :=
  let buttonWidth := 100 in
  let buttonHeight := 40 in
  let top := Rect.bottom boundingRect + 8 in
  let left := Rect.right boundingRect - 50 in
  let transform := "translateX(-50%)"%string in
  let '(left, transform) :=
    if left - buttonWidth / 2 <? 0 then (Rect.left boundingRect, "translateX(0)"%string)
    else if viewportWidth <? left + buttonWidth / 2
         then (Rect.right boundingRect, "translateX(-100%)"%string)
         else (left, transform) in
  let top :=
    if viewportHeight <? top + buttonHeight
    then Rect.top boundingRect - buttonHeight - 8
    else top in
  {| top := top; left := left; transform := transform |}.

(** The string [`${n}px`] of a template literal, kept as the number it prints. *)
Inductive Px := px (n : float).

Record Style := {
  style_position : string;
  style_top : Px;
  style_left : Px;
  style_zIndex : Z;
  style_transform : string;
}.

Definition buttonStyle (a : Anchor) : Style :=
  {| style_position := "fixed";
     style_top := px (top a);
     style_left := px (left a);
     style_zIndex := 1000;
     style_transform := transform a |}.

(** The component: [None] is [return null], [Some] is the rendered button. *)
Definition render (viewportWidth viewportHeight : float) (selection : SelectionState)
  : option Style :=
  match isValid selection, boundingRect selection with
  | true, Some rect => Some (buttonStyle (position viewportWidth viewportHeight rect))
  | _, _ => None
  end.

(** *** Activation: [handleClick]

    The calls [handleClick] makes leave the component; what they do, and whether
    they throw, is the environment's. *)
Record Env := {
  dispatchEvent : JSString.t -> Result unit;
  textarea : option unit;                       (* [document.querySelector(...)] *)
  focus : Result unit;
  setSelectionRange : nat -> nat -> Result unit;
  onFollowUp : option (Result unit);
}.

Inductive Effect :=
  | Dispatched (detail : JSString.t)
  | Focused
  | CaretPlaced (selectionStart selectionEnd : nat)
  | FollowedUp
  | ConsoleError (message : string) (error : JSError).

(** A task queued with [setTimeout(..., 0)]. *)
Inductive Task := PlaceCaret (selectionStart selectionEnd : nat).

Record Log := { effects : list Effect; queued : list Task }.

Definition Eff (A : Type) : Type := Log -> Result A * Log.

#[global] Instance Eff_ret : MRet Eff := fun A a l => (Ok a, l).
#[global] Instance Eff_bind : MBind Eff := fun A B k m l =>
  match m l with
  | (Ok a, l') => k a l'
  | (Throw e, l') => (Throw e, l')
  end.
Definition emit (e : Effect) : Eff unit :=
  fun l => (Ok tt, {| effects := effects l ++ [e]; queued := queued l |}).
Definition queue (t : Task) : Eff unit :=
  fun l => (Ok tt, {| effects := effects l; queued := queued l ++ [t] |}).
(** An outside call: it is logged when it returns, and may throw instead. *)
Definition call (outcome : Result unit) (e : Effect) : Eff unit :=
  fun l => match outcome with
           | Ok _ => emit e l
           | Throw err => (Throw err, l)
           end.
Definition tryCatch {A} (body : Eff A) (handler : JSError -> Eff A) : Eff A :=
  fun l => match body l with
           | (Ok a, l') => (Ok a, l')
           | (Throw e, l') => handler e l'
           end.

Definition quote : JSString.t := [34%N].

Definition followUpText (selection : SelectionState) : JSString.t :=
  JSString.lit "Follow up on: " ++ quote ++ text selection ++ quote.

Definition handleClick (env : Env) (selection : SelectionState) : Eff unit :=
  tryCatch
    (let followUpText := followUpText selection in
     call (dispatchEvent env followUpText) (Dispatched followUpText) ;;
     match textarea env with
     | Some _ =>
         call (focus env) Focused ;;
         queue (PlaceCaret (length followUpText) (length followUpText))
     | None => mret tt
     end ;;
     match onFollowUp env with
     | Some outcome => call outcome FollowedUp
     | None => mret tt
     end)
    (fun error => emit (ConsoleError "Error handling follow-up button click:" error)).


End FollowUpButton.

(** ** A sample page

    [document > html > body] with two finished assistant messages, one streaming
    assistant message and a user message. *)

Module Sample.

Import Dom.

Definition el (id : positive) (attrs : list (string * string)) (classes : list string)
  (kids : list Tree) : Tree := TNode id ELEMENT_NODE attrs classes kids.
Definition txt (id : positive) : Tree := TNode id TEXT_NODE [] [] [].

Definition textA : Tree := txt 6.
Definition paraA : Tree := el 5 [] [] [textA].
Definition messageA : Tree := el 4 [("data-message-role", "assistant")] [] [paraA].
Definition textB : Tree := txt 8.
Definition messageB : Tree := el 7 [("data-message-role", "assistant")] [] [textB].
Definition textC : Tree := txt 10.
Definition dots : Tree := el 11 [] ["dot-falling"] [].
Definition messageC : Tree := el 9 [("data-message-role", "assistant")] [] [textC; dots].
Definition textU : Tree := txt 13.
Definition messageU : Tree := el 12 [("data-message-role", "user")] [] [textU].
Definition body : Tree := el 3 [] [] [messageA; messageB; messageC; messageU].
Definition html : Tree := el 2 [] [] [body].
Definition doc : Tree := TNode 1 DOCUMENT_NODE [] [] [html].

Definition at_ (chain : list Tree) (t : Tree) : Node := {| self := t; ancestors := chain |}.

Definition nDoc : Node := at_ [] doc.
Definition nBody : Node := at_ [html; doc] body.
Definition nMessageA : Node := at_ [body; html; doc] messageA.
Definition nTextA : Node := at_ [paraA; messageA; body; html; doc] textA.
Definition nTextB : Node := at_ [messageB; body; html; doc] textB.
Definition nTextC : Node := at_ [messageC; body; html; doc] textC.
Definition nTextU : Node := at_ [messageU; body; html; doc] textU.

Definition rect0 : Rect.t :=
  {| Rect.top := 700%float; Rect.left := 900%float; Rect.right := 950%float;
     Rect.bottom := 720%float; Rect.width := 50%float; Rect.height := 20%float |}.

Definition rangeIn (n : Node) : Range :=
  {| startContainer := n; endContainer := n; commonAncestorContainer := n;
     getBoundingClientRect := rect0 |}.

(** From the text of message A to the text of message B. *)
Definition rangeAB : Range :=
  {| startContainer := nTextA; endContainer := nTextB; commonAncestorContainer := nBody;
     getBoundingClientRect := rect0 |}.

(** The whole document selected: every container is the document node. *)
Definition rangeDoc : Range := rangeIn nDoc.

Definition hello : JSString.t := JSString.lit "  hello world ".

End Sample.

(** * Vocabulary of the properties *)

Local Close Scope N_scope.

(** What a node resolves to in rules 4 and 6: the nearest assistant message of
    the node, or of its parent element when it is a text node. *)
Definition messageOf (node : Dom.Node) : Result (option Dom.Node) :=
  Dom.callClosest (elementOf node) assistantMessage.

(** [node] is an element, or a text node whose parent is an element. *)
Definition hasElement (node : Dom.Node) : Prop :=
  is_Some (elementOf node)
  /\ forall e, elementOf node = Some e -> Dom.isElement e = true.

(** A valid state, as the button receives it. *)
Definition validState (txt : JSString.t) (rect : Rect.t) : SelectionState :=
  {| text := txt; isValid := true; range := Some 1%positive; boundingRect := Some rect |}.

(** The rectangles of the two worked examples. *)
Definition rectNearCorner : Rect.t :=
  {| Rect.top := 700%float; Rect.left := 900%float; Rect.right := 950%float;
     Rect.bottom := 720%float; Rect.width := 50%float; Rect.height := 20%float |}.
Definition rectAtLeft : Rect.t :=
  {| Rect.top := 10%float; Rect.left := 0%float; Rect.right := 30%float;
     Rect.bottom := 30%float; Rect.width := 30%float; Rect.height := 20%float |}.

(** A rectangle on half and quarter pixels. *)
Definition rectFractional : Rect.t :=
  {| Rect.top := 10.5%float; Rect.left := 0.5%float; Rect.right := 30.5%float;
     Rect.bottom := 30.25%float; Rect.width := 30%float; Rect.height := 19.75%float |}.

(** A rectangle so far down that doubles are 16 apart: its top is 2^56 + 48. *)
Definition rectFarDown : Rect.t :=
  {| Rect.top := 72057594037927984%float; Rect.left := 100%float;
     Rect.right := 200%float; Rect.bottom := 72057594037928000%float;
     Rect.width := 100%float; Rect.height := 16%float |}.

(** Nothing done, nothing queued. *)
Definition emptyLog : FollowUpButton.Log :=
  {| FollowUpButton.effects := []; FollowUpButton.queued := [] |}.



Definition anyEvent (e : Event) : Prop := True.

(** A text that is trimmed, has five code units or more, and holds a code point
    that is neither white space nor punctuation. *)
Definition meaningful (s : JSString.t) : Prop :=
  JSString.trim s = s
  /\ (5 <= length s)%nat
  /\ exists cp, cp ∈ JSString.codePoints s
       /\ JSString.isWhiteSpace cp = false /\ JSString.isPunctuation cp = false.

(** A stored state is the empty state or a full valid one. *)
Definition stateOk (s : SelectionState) : Prop :=
  s = emptySelection
  \/ (isValid s = true /\ is_Some (range s) /\ is_Some (boundingRect s)
      /\ meaningful (text s)).

(** The text of message A is selected and the debounce delay passes. *)
Definition sampleRun : list Event :=
  [Select Sample.hello [Sample.rangeIn Sample.nTextA]; SelectionChange; Wait 100].

(** Every pending timer is the one [selectionTimeoutRef] points to. *)
Definition timersTracked (w : World) : Prop :=
  forall tm, In tm (timers (clock w)) -> selectionTimeoutRef (hook w) = Some (timerId tm).

(** The world once the pending callback has run. *)
Definition settled (w : World) : World :=
  match onSelectionTimeout w with
  | Ok w' => w'
  | Throw _ => w
  end.

(** What the browser shows as the selection: its text and its ranges. *)
Definition Sel : Type := JSString.t * list Range.

(** The selection changes to [s] and [selectionchange] is dispatched. *)
Definition notify (s : Sel) : list Event := [Select (fst s) (snd s); SelectionChange].

(** Notifications, each followed by the time until the next one. *)
Fixpoint burst (b : list (Sel * nat)) : list Event :=
  match b with
  | [] => []
  | (s, gap) :: b' => notify s ++ Wait gap :: burst b'
  end.

(** Five notifications, 50 ms apart, as the user drags over message A; each of
    the first four selections would be valid on its own. *)
Definition dragging : list (Sel * nat) :=
  [ ((JSString.lit "hello", [Sample.rangeIn Sample.nTextA]), 50);
    ((JSString.lit "hello w", [Sample.rangeIn Sample.nTextA]), 50);
    ((JSString.lit "hello wo", [Sample.rangeIn Sample.nTextA]), 50);
    ((JSString.lit "hello wor", [Sample.rangeIn Sample.nTextA]), 50) ].

(** The selection when the drag ends. *)
Definition released : Sel := (Sample.hello, [Sample.rangeIn Sample.nTextA]).

(** The selection's ranges have been allocated. *)
Definition liveBelow (d : Document) : Prop :=
  forall id, In id (liveRanges d) -> (id < nextRangeId d)%positive.

(** [rid] is an allocated range that is not one of the selection's. *)
Definition separate (rid : positive) (d : Document) : Prop :=
  (rid < nextRangeId d)%positive /\ ~ In rid (liveRanges d).

(** The selection's ranges are allocated, and the range the state refers to is an
    allocated object that is none of them. *)
Definition rangesFresh (w : World) : Prop :=
  liveBelow (document w)
  /\ forall rid, range (selection (hook w)) = Some rid ->
       separate rid (document w) /\ is_Some (ranges (document w) !! rid).

(** A range object that is not the selection's keeps its contents for as long
    as no node is removed. *)
Definition cloneKept (rid : positive) (r0 : Range) (w : World) : Prop :=
  liveBelow (document w)
  /\ separate rid (document w)
  /\ ranges (document w) !! rid = Some r0.

(** The events that remove no node. *)
Definition keepsDom (e : Event) : Prop :=
  match e with
  | RemoveNode _ => False
  | _ => True
  end.

(** The events that are the browser's alone. *)
Definition browserEvent (e : Event) : Prop :=
  match e with
  | Select _ _ | AdjustLive _ _ | RemoveNode _ => True
  | _ => False
  end.

(** The selection is replaced, stretched in place, then emptied. *)
Definition afterwards : list Event :=
  [Select (JSString.lit "something else") [Sample.rangeDoc];
   AdjustLive (fun _ => Sample.rangeAB) (JSString.lit "stretched");
   Select [] []].

(** Every range of the selection is an object of the store. *)
Definition liveAllocated (d : Document) : Prop :=
  forall id, In id (liveRanges d) -> is_Some (ranges d !! id).

(** The events without a [selectionchange] notification. *)
Definition noNotification (e : Event) : Prop :=
  match e with
  | SelectionChange => False
  | _ => True
  end.

(** What can still happen once the hook is unmounted: the browser goes on and
    time passes, but no handler of the hook is called. *)
Definition afterUnmount (e : Event) : Prop :=
  match e with
  | SelectionChange | Click _ | Clear => False
  | _ => True
  end.

(** The events that put no selection back: everything but a change of the
    document selection. *)
Definition noReselect (e : Event) : Prop :=
  match e with
  | Select _ _ | AdjustLive _ _ => False
  | _ => True
  end.

(** A notification arrives 50 ms before the selection is cleared. *)
Definition pendingRun : list Event :=
  [Select Sample.hello [Sample.rangeIn Sample.nTextA]; SelectionChange; Wait 50].

(** Notifications and waiting: the events in which only the debounce and the
    validation run. *)
Definition passive (e : Event) : Prop :=
  match e with
  | SelectionChange | Wait _ => True
  | _ => False
  end.

(** From the text of message A to the text of message B, with the document as
    the common ancestor. *)
Definition rangeSplitNoAncestor : Range :=
  {| startContainer := Sample.nTextA; endContainer := Sample.nTextB;
     commonAncestorContainer := Sample.nDoc;
     getBoundingClientRect := Sample.rect0 |}.

(** The notifications of a burst that are followed by 100 ms or more of quiet. *)
Definition settledCount (b : list (Sel * nat)) : nat :=
  length (List.filter (fun x => 100 <=? snd x) b).

(** A page whose text area refuses the focus. *)
Definition envFocusThrows : FollowUpButton.Env :=
  {| FollowUpButton.dispatchEvent := fun _ => Ok tt;
     FollowUpButton.textarea := Some tt;
     FollowUpButton.focus := Throw (Raised "focus");
     FollowUpButton.setSelectionRange := fun _ _ => Ok tt;
     FollowUpButton.onFollowUp := Some (Ok tt) |}.

(** A page where every outside call of [handleClick] succeeds. *)
Definition envQuiet (withTextarea withHook : bool) : FollowUpButton.Env :=
  {| FollowUpButton.dispatchEvent := fun _ => Ok tt;
     FollowUpButton.textarea := if withTextarea then Some tt else None;
     FollowUpButton.focus := Ok tt;
     FollowUpButton.setSelectionRange := fun _ _ => Ok tt;
     FollowUpButton.onFollowUp := if withHook then Some (Ok tt) else None |}.

Local Open Scope N_scope.

(** * Properties *)

Arguments JSString.isPunctuation : simpl never.
Arguments JSString.isWhiteSpace : simpl never.
Arguments Dom.callClosest : simpl never.
Arguments validateSelection : simpl never.
Arguments onSelectionTimeout : simpl never.
Arguments handleClickOutside : simpl never.
Arguments handleSelectionChange : simpl never.
Arguments clearSelection : simpl never.
Arguments select : simpl never.
Arguments adjustLive : simpl never.
Arguments removeNode : simpl never.
Arguments elapse : simpl never.
Arguments tick : simpl never.
Arguments fire : simpl never.

(** ** Trimming *)

Section Trim.

Import JSString.

Lemma trimStart_head (s : t) :
  trimStart s = [] \/ exists c r, trimStart s = c :: r /\ isWhiteSpace c = false.
Proof.
  induction s as [|c s IH]; simpl; [by left|].
  destruct (isWhiteSpace c) eqn:Hc; [exact IH|].
  right. by exists c, s.
Qed.

Lemma trimEnd_keeps_head (c : N) (s : t) :
  isWhiteSpace c = false -> exists r, trimEnd (c :: s) = c :: r.
Proof.
  intros Hc. simpl. destruct (trimEnd s) as [|x r].
  - rewrite Hc. by exists [].
  - by exists (x :: r).
Qed.

Lemma trimEnd_idempotent (s : t) : trimEnd (trimEnd s) = trimEnd s.
Proof.
  induction s as [|c s IH]; [done|].
  simpl. destruct (trimEnd s) as [|x r] eqn:Hs.
  - destruct (isWhiteSpace c) eqn:Hc; [done|]. simpl. by rewrite Hc.
  - change (trimEnd (c :: x :: r)) with
      (match trimEnd (x :: r) with
       | [] => if isWhiteSpace c then [] else [c]
       | y :: r' => c :: y :: r'
       end).
    by rewrite IH.
Qed.

Lemma trim_idempotent (s : t) : trim (trim s) = trim s.
Proof.
  unfold trim. destruct (trimStart_head s) as [->|(c & r & -> & Hc)]; [done|].
  destruct (trimEnd_keeps_head c r Hc) as [r' Hr]. rewrite Hr.
  simpl trimStart. rewrite Hc, <- Hr. apply trimEnd_idempotent.
Qed.

Lemma forallb_false_witness {A} (p : A -> bool) (l : list A) :
  forallb p l = false -> exists x, x ∈ l /\ p x = false.
Proof.
  induction l as [|a l IH]; simpl; [done|].
  destruct (p a) eqn:Ha; simpl.
  - intros H. destruct (IH H) as (x & Hx & Hp). exists x. split; [by right|done].
  - intros _. exists a. split; [by left|done].
Qed.

Lemma forallb_true_all {A} (p : A -> bool) (l : list A) :
  (forall x, x ∈ l -> p x = true) -> forallb p l = true.
Proof.
  induction l as [|a l IH]; simpl; [done|].
  intros H. rewrite (H a) by (by left). simpl. apply IH. intros x Hx. apply H. by right.
Qed.

(** When the pattern does not match, some code point is neither white space
    nor punctuation. *)
Lemma not_onlySpaceOrPunctuation (s : t) :
  onlySpaceOrPunctuation s = false ->
  exists cp, cp ∈ codePoints s /\ isWhiteSpace cp = false /\ isPunctuation cp = false.
Proof.
  intros H. destruct (forallb_false_witness _ _ H) as (cp & Hin & Hcp).
  exists cp. split; [done|]. by apply orb_false_iff in Hcp.
Qed.

End Trim.

(** ** The validator *)

Lemma validateSelection_unfold (selectedText : JSString.t) (r : Range) :
  validateSelection selectedText (Some r) =
    if negb (JSString.truthy selectedText) then Ok false else
    if (length (JSString.trim selectedText) <? 5)%nat then Ok false else
    if JSString.onlySpaceOrPunctuation (JSString.trim selectedText) then Ok false else
    messageContainer ← messageOf (commonAncestorContainer r);
    match messageContainer with
    | None => Ok false
    | Some message =>
        if bool_decide (is_Some (Dom.querySelector dotFalling message)) then Ok false else
        startMessage ← messageOf (startContainer r);
        endMessage ← messageOf (endContainer r);
        Ok (Dom.strictEq startMessage endMessage
            && Dom.strictEq startMessage messageContainer)
    end.
Proof. reflexivity. Qed.

(** An accepted text is long enough and not only space and punctuation. *)
Lemma validateSelection_true_text (selectedText : JSString.t) (r : option Range) :
  validateSelection selectedText r = Ok true ->
  (5 <= length (JSString.trim selectedText))%nat
  /\ JSString.onlySpaceOrPunctuation (JSString.trim selectedText) = false.
Proof.
  destruct r as [r|]; [|done]. rewrite validateSelection_unfold.
  destruct (negb _); [done|].
  destruct (Nat.ltb_spec (length (JSString.trim selectedText)) 5); [done|].
  destruct (JSString.onlySpaceOrPunctuation _); [done|]. intros _. split; [lia|done].
Qed.

(** C9. Content rules: a text whose trimmed form is shorter than five code units,
    or whose trimmed form holds only white space and Unicode punctuation (at any
    length), is rejected by [validateSelection] for every range, present or
    absent: the validator returns [false], it does not throw. *)
Theorem validateSelection_rejects_content (selectedText : JSString.t) (range : option Range) :
  (length (JSString.trim selectedText) < 5)%nat
  \/ (forall cp, cp ∈ JSString.codePoints (JSString.trim selectedText) ->
        JSString.isWhiteSpace cp = true \/ JSString.isPunctuation cp = true) ->
  validateSelection selectedText range = Ok false.
Proof.
  intros H. destruct range as [r|]; [|done]. rewrite validateSelection_unfold.
  destruct (negb _); [done|].
  destruct (Nat.ltb_spec (length (JSString.trim selectedText)) 5) as [|Hlen]; [done|].
  destruct H as [H|H]; [lia|].
  unfold JSString.onlySpaceOrPunctuation. rewrite forallb_true_all; [done|].
  intros cp Hcp. apply orb_true_iff. by apply H.
Qed.

Lemma validateSelection_rejects_content_witness :
  validateSelection (JSString.lit "  hi ") (Some Sample.rangeDoc) = Ok false
  /\ validateSelection (JSString.lit "... --- !!!") (Some (Sample.rangeIn Sample.nTextA)) = Ok false.
Proof.
  split.
  - apply validateSelection_rejects_content. left. vm_compute. lia.
  - apply validateSelection_rejects_content. right. intros cp Hcp.
    apply orb_true_iff.
    assert (Hall : forallb (fun c => JSString.isWhiteSpace c || JSString.isPunctuation c)
                     (JSString.codePoints (JSString.trim (JSString.lit "... --- !!!"))) = true)
      by (vm_compute; reflexivity).
    rewrite forallb_forall in Hall. apply Hall. by apply list_elem_of_In.
Defined.

(** ** One message only *)

Lemma strictEq_trans_false (a b c : option Dom.Node) :
  Dom.strictEq a b = true -> Dom.strictEq b c = false -> Dom.strictEq a c = false.
Proof.
  destruct a as [a|], b as [b|], c as [c|]; simpl; try done.
  intros Hab Hbc. apply Pos.eqb_eq in Hab. by rewrite Hab.
Qed.

(** C5. When the start container, the end container and the common ancestor each
    resolve (text node to parent element, then nearest assistant message, or
    none), and the start and the end resolve to different messages, or one of
    them to a message other than the common ancestor's, [validateSelection]
    returns [false], whatever the text. *)
Theorem validateSelection_rejects_split
    (selectedText : JSString.t) (r : Range) (startMessage endMessage message : option Dom.Node) :
  messageOf (startContainer r) = Ok startMessage ->
  messageOf (endContainer r) = Ok endMessage ->
  messageOf (commonAncestorContainer r) = Ok message ->
  Dom.strictEq startMessage endMessage = false
  \/ Dom.strictEq startMessage message = false
  \/ Dom.strictEq endMessage message = false ->
  validateSelection selectedText (Some r) = Ok false.
Proof.
  intros Hs He Hc Hdiff. rewrite validateSelection_unfold, Hs, He, Hc.
  destruct (negb _); [done|]. destruct (_ <? _)%nat; [done|].
  destruct (JSString.onlySpaceOrPunctuation _); [done|]. simpl.
  destruct message as [m|]; [|done].
  destruct (bool_decide _); [done|]. f_equal.
  apply andb_false_iff.
  destruct (Dom.strictEq startMessage endMessage) eqn:Hse; [right|by left].
  destruct Hdiff as [H|[H|H]]; [done|done|].
  by apply strictEq_trans_false with endMessage.
Qed.

Lemma validateSelection_rejects_split_witness :
  validateSelection Sample.hello (Some Sample.rangeAB) = Ok false.
Proof.
  apply (validateSelection_rejects_split Sample.hello Sample.rangeAB
           (Some Sample.nMessageA)
           (Some (Sample.at_ [Sample.body; Sample.html; Sample.doc] Sample.messageB))
           None);
    [reflexivity | reflexivity | reflexivity | left; reflexivity].
Defined.

(** X18. A range whose start and end resolve to different messages is never
    accepted, also when nothing is known of its common ancestor (the validator
    may then throw, but it does not return [true]). *)
Lemma validateSelection_never_accepts_split
    (selectedText : JSString.t) (r : Range) (startMessage endMessage : option Dom.Node) :
  messageOf (startContainer r) = Ok startMessage ->
  messageOf (endContainer r) = Ok endMessage ->
  Dom.strictEq startMessage endMessage = false ->
  validateSelection selectedText (Some r) <> Ok true.
Proof.
  intros Hs He Hdiff. rewrite validateSelection_unfold, Hs, He.
  destruct (negb _); [done|]. destruct (_ <? _)%nat; [done|].
  destruct (JSString.onlySpaceOrPunctuation _); [done|].
  destruct (messageOf (commonAncestorContainer r)) as [[m|]|]; simpl; try done.
  destruct (bool_decide _); [done|]. by rewrite Hdiff.
Qed.

(** ** Lookups that find nothing *)

(** C2. The validator throws where a lookup finds no element: with the whole
    document selected the common ancestor is the document node, which has no
    [closest]; a text node whose parent is not an element has a null
    [parentElement]. The exception leaves the timer callback uncaught, and a
    click whose target is the document leaves [handleClickOutside] the same
    way. *)
Theorem validateSelection_throws_without_element :
  validateSelection Sample.hello (Some Sample.rangeDoc) = Throw TypeError
  /\ validateSelection Sample.hello
       (Some (Sample.rangeIn (Sample.at_ [Sample.doc] (Sample.txt 20)))) = Throw TypeError
  /\ uncaught (run [Select Sample.hello [Sample.rangeDoc]; SelectionChange; Wait 100] init)
     = [TypeError]
  /\ handleClickOutside Sample.nDoc (world init) = Throw TypeError.
Proof. repeat split; vm_compute; reflexivity. Qed.

Lemma messageOf_returns (node : Dom.Node) :
  hasElement node -> exists m, messageOf node = Ok m.
Proof.
  intros [[e He] Hel]. unfold messageOf, Dom.callClosest. rewrite He.
  rewrite (Hel e He). eauto.
Qed.

(** Where the three containers are elements, or text nodes inside an element,
    the validator returns. *)
Lemma validateSelection_returns (selectedText : JSString.t) (r : Range) :
  hasElement (commonAncestorContainer r) ->
  hasElement (startContainer r) ->
  hasElement (endContainer r) ->
  exists b, validateSelection selectedText (Some r) = Ok b.
Proof.
  intros Hc Hs He. rewrite validateSelection_unfold.
  destruct (messageOf_returns _ Hc) as [mc ->].
  destruct (messageOf_returns _ Hs) as [ms ->].
  destruct (messageOf_returns _ He) as [me ->].
  destruct (negb _); [eauto|]. destruct (_ <? _)%nat; [eauto|].
  destruct (JSString.onlySpaceOrPunctuation _); [eauto|]. simpl.
  destruct mc; [|eauto]. destruct (bool_decide _); eauto.
Qed.

(** ** Clearing *)

(** C8. After [clearSelection] the state is the empty state and the document
    selection has no range, whatever the state was before; clearing again changes
    nothing. *)
Theorem clearSelection_idempotent (w : World) :
  selection (hook (clearSelection w)) = emptySelection
  /\ length (liveRanges (document (clearSelection w))) = 0%nat
  /\ clearSelection (clearSelection w) = clearSelection w.
Proof. by destruct w as [c d h]. Qed.

(** ** Positioning the button *)

Section Positioning.

Import FollowUpButton.
Local Open Scope float_scope.

(** C3, as the code computes it. For a valid selection state the button is
    rendered at the anchor [position] computes, in double arithmetic: 8px under
    the rectangle and 50px left of its right edge, centred; pinned to the
    rectangle's left edge when that would pass the left of the viewport, else to
    its right edge when it would pass the right; and, when it would pass the
    bottom, moved to the rectangle's top minus 40 and then minus 8. The
    horizontal pair reads only [left], [right] and the viewport width, the
    vertical coordinate only [top], [bottom] and the viewport height. *)
Theorem FollowUpButton_anchor (viewportWidth viewportHeight : float)
    (s : SelectionState) (rect : Rect.t) :
  isValid s = true ->
  boundingRect s = Some rect ->
  render viewportWidth viewportHeight s
    = Some (buttonStyle (position viewportWidth viewportHeight rect))
  /\ position viewportWidth viewportHeight rect =
     {| top := if viewportHeight <? Rect.bottom rect + 8 + 40
               then Rect.top rect - 40 - 8
               else Rect.bottom rect + 8;
        left := if Rect.right rect - 50 - 50 <? 0 then Rect.left rect
                else if viewportWidth <? Rect.right rect - 50 + 50 then Rect.right rect
                     else Rect.right rect - 50;
        transform := if Rect.right rect - 50 - 50 <? 0 then "translateX(0)"
                     else if viewportWidth <? Rect.right rect - 50 + 50
                          then "translateX(-100%)"
                          else "translateX(-50%)" |}
  /\ (forall viewportHeight' rect',
        Rect.left rect' = Rect.left rect ->
        Rect.right rect' = Rect.right rect ->
        left (position viewportWidth viewportHeight' rect')
          = left (position viewportWidth viewportHeight rect)
        /\ transform (position viewportWidth viewportHeight' rect')
          = transform (position viewportWidth viewportHeight rect))
  /\ (forall viewportWidth' rect',
        Rect.top rect' = Rect.top rect ->
        Rect.bottom rect' = Rect.bottom rect ->
        top (position viewportWidth' viewportHeight rect')
          = top (position viewportWidth viewportHeight rect)).
Proof.
  intros Hv Hr. split; [|split; [|split]].
  - unfold render. by rewrite Hv, Hr.
  - unfold position. change (100 / 2) with 50.
    destruct (_ <? 0); [done|]. by destruct (viewportWidth <? _).
  - intros H' rect' Hl Hrt. unfold position. rewrite Hl, Hrt.
    destruct (_ <? 0); [done|]. by destruct (viewportWidth <? _).
  - intros W' rect' Ht Hb. unfold position. rewrite Ht, Hb.
    destruct (Rect.right rect' - 50 - 100 / 2 <? 0),
             (Rect.right rect - 50 - 100 / 2 <? 0),
             (W' <? Rect.right rect' - 50 + 100 / 2),
             (viewportWidth <? Rect.right rect - 50 + 100 / 2); reflexivity.
Qed.

(** The two worked examples, in a 1000x800 viewport, and a rectangle on
    fractions of a pixel. *)
Lemma FollowUpButton_anchor_witness :
  (render 1000 800 (validState Sample.hello rectNearCorner)
     = Some (buttonStyle {| top := 728; left := 900; transform := "translateX(-50%)" |})
   /\ position 1000 800 rectNearCorner
     = {| top := 728; left := 900; transform := "translateX(-50%)" |})
  /\ (render 1000 800 (validState Sample.hello rectAtLeft)
        = Some (buttonStyle {| top := 38; left := 0; transform := "translateX(0)" |})
      /\ position 1000 800 rectAtLeft
        = {| top := 38; left := 0; transform := "translateX(0)" |})
  /\ position 1000 800 rectFractional
     = {| top := 38.25; left := 0.5; transform := "translateX(0)" |}.
Proof.
  destruct (FollowUpButton_anchor 1000 800 (validState Sample.hello rectNearCorner)
              rectNearCorner eq_refl eq_refl) as (Hr1 & Hp1 & _).
  destruct (FollowUpButton_anchor 1000 800 (validState Sample.hello rectAtLeft)
              rectAtLeft eq_refl eq_refl) as (Hr2 & Hp2 & _).
  destruct (FollowUpButton_anchor 1000 800 (validState Sample.hello rectFractional)
              rectFractional eq_refl eq_refl) as (_ & Hp3 & _).
  split; [split|split; [split|]].
  - etransitivity; [exact Hr1|]. vm_compute. reflexivity.
  - etransitivity; [exact Hp1|]. vm_compute. reflexivity.
  - etransitivity; [exact Hr2|]. vm_compute. reflexivity.
  - etransitivity; [exact Hp2|]. vm_compute. reflexivity.
  - etransitivity; [exact Hp3|]. vm_compute. reflexivity.
Defined.

(** C3, as stated, fails where the two subtractions round: for a rectangle whose
    top is 2^56 + 48 the button is moved above it, and the code's
    [rect.top - 40 - 8] is 2^56 - 8 while [rect.top - 48] is 2^56. *)
Lemma anchor_top_rounds_twice :
  isValid (validState Sample.hello rectFarDown) = true
  /\ (800 <? Rect.bottom rectFarDown + 8 + 40) = true
  /\ top (position 1000 800 rectFarDown) = 72057594037927928
  /\ Rect.top rectFarDown - 48 = 72057594037927936
  /\ top (position 1000 800 rectFarDown) <> Rect.top rectFarDown - 48.
Proof.
  split; [reflexivity|]. split; [vm_compute; reflexivity|].
  split; [vm_compute; reflexivity|]. split; [vm_compute; reflexivity|].
  vm_compute. intros H. discriminate H.
Qed.

(** Nothing is rendered for a state that is not valid. *)
Lemma render_invalid (viewportWidth viewportHeight : float) (s : SelectionState) :
  isValid s = false -> render viewportWidth viewportHeight s = None.
Proof. intros H. unfold render. by rewrite H. Qed.

End Positioning.

(** ** Activating the button *)

Section Activation.

Import FollowUpButton.

(** The payload is the literal [Follow up on: "<text>"]. *)
Lemma followUpText_literal (s : SelectionState) :
  followUpText s = JSString.lit "Follow up on: " ++ [34%N] ++ text s ++ [34%N].
Proof. reflexivity. Qed.

Lemma followUpText_example :
  followUpText (validState (JSString.lit "selected text") rectNearCorner)
  = JSString.lit "Follow up on: " ++ [34%N] ++ JSString.lit "selected text" ++ [34%N].
Proof. reflexivity. Qed.

(** X16. [handleClick] never throws to its caller, whatever the outside calls
    do: what they throw inside it is caught. *)
Lemma handleClick_returns (env : Env) (s : SelectionState) (l : Log) :
  exists l', handleClick env s l = (Ok tt, l').
Proof.
  unfold handleClick, tryCatch.
  match goal with
  | |- exists _, match ?body with _ => _ end = _ => destruct body as [[[]|e] l']
  end; [eauto|].
  unfold emit. eauto.
Qed.

Lemma handleClick_logs_caught (env : Env) (s : SelectionState) (l : Log) (e : JSError) :
  dispatchEvent env (followUpText s) = Throw e ->
  handleClick env s l
  = (Ok tt, {| effects := effects l ++ [ConsoleError "Error handling follow-up button click:" e];
               queued := queued l |}).
Proof.
  intros H. unfold handleClick, tryCatch, mbind, Eff_bind, call. by rewrite H.
Qed.



End Activation.

(** ** Invariants of runs *)

Lemma hook_select (txt : JSString.t) (rs : list Range) (w : World) :
  hook (select txt rs w) = hook w /\ clock (select txt rs w) = clock w.
Proof. unfold select. by destruct (allocRanges _ _ _) as [[ids next] h]. Qed.

Lemma handleSelectionChange_selection (w : World) :
  selection (hook (handleSelectionChange w)) = selection (hook w)
  /\ document (handleSelectionChange w) = document w.
Proof. unfold handleSelectionChange. by destruct (selectionTimeoutRef (hook w)). Qed.

Lemma handleClickOutside_cases (target : Dom.Node) (w w' : World) :
  handleClickOutside target w = Ok w' -> w' = w \/ w' = clearSelection w.
Proof.
  unfold handleClickOutside.
  destruct (Dom.callClosest (Some target) assistantMessage) as [m|]; simpl; [|done].
  destruct (Dom.callClosest (Some target) followupButton) as [b|]; simpl; [|done].
  destruct (_ && _); intros [= <-]; [by right|by left].
Qed.

(** What the timer callback can do: reset the state, store a clone of the
    selection's first range with a copy of its rectangle, or throw. *)
Lemma onSelectionTimeout_cases (w w' : World) :
  onSelectionTimeout w = Ok w' ->
  w' = setSelection emptySelection w
  \/ exists live r,
       getRangeAt0 w = Ok (live, r)
       /\ validateSelection (liveText (document w)) (Some r) = Ok true
       /\ w' = setSelection
                 {| text := JSString.trim (liveText (document w));
                    isValid := true;
                    range := Some (nextRangeId (document w));
                    boundingRect := Some (getBoundingClientRect r) |}
                 (snd (cloneRange r w)).
Proof.
  unfold onSelectionTimeout. destruct (_ || _); [intros [= <-]; by left|].
  destruct (getRangeAt0 w) as [[live r]|]; simpl; [|done].
  destruct (validateSelection (liveText (document w)) (Some r)) as [[|]|] eqn:Hv;
    simpl; [| |done].
  - intros [= <-]. right. exists live, r. repeat split; [done|].
    by destruct (getBoundingClientRect r).
  - intros [= <-]. by left.
Qed.

Section RunInvariant.

(** [P] is kept by the runs whose events all satisfy [ok], when each kind of
    event that [ok] admits keeps it. *)
Variable ok : Event -> Prop.
Variable P : World -> Prop.

Hypothesis P_select : forall txt rs w, ok (Select txt rs) -> P w -> P (select txt rs w).
Hypothesis P_adjust : forall f txt w, ok (AdjustLive f txt) -> P w -> P (adjustLive f txt w).
Hypothesis P_remove : forall n w, ok (RemoveNode n) -> P w -> P (removeNode n w).
Hypothesis P_change : forall w, ok SelectionChange -> P w -> P (handleSelectionChange w).
Hypothesis P_click : forall target w, ok (Click target) -> P w -> P (clearSelection w).
Hypothesis P_clear : forall w, ok Clear -> P w -> P (clearSelection w).
Hypothesis P_elapse : forall ms w, ok (Wait ms) -> P w -> P (snd (elapse w)).
Hypothesis P_timeout :
  forall ms w w', ok (Wait ms) -> P w -> onSelectionTimeout w = Ok w' -> P w'.

Lemma fire_invariant (ms : nat) (t : Trace) :
  ok (Wait ms) -> P (world t) -> P (world (fire t)).
Proof.
  intros Hok H. unfold fire. destruct (onSelectionTimeout (world t)) eqn:Hr; simpl; eauto.
Qed.

Lemma fires_invariant (ms : nat) (l : list Timer) (t : Trace) :
  ok (Wait ms) -> P (world t) -> P (world (fold_left (fun t _ => fire t) l t)).
Proof.
  intros Hok. revert t. induction l as [|tm l IH]; intros t H; simpl; [done|].
  apply IH. by apply (fire_invariant ms).
Qed.

Lemma tick_invariant (ms : nat) (t : Trace) :
  ok (Wait ms) -> P (world t) -> P (world (tick t)).
Proof.
  intros Hok H. unfold tick. pose proof (P_elapse ms _ Hok H) as He.
  destruct (elapse (world t)) as [dueNow w]. by apply (fires_invariant ms).
Qed.

Lemma step_invariant (e : Event) (t : Trace) :
  ok e -> P (world t) -> P (world (step t e)).
Proof.
  intros Hok H. destruct e; simpl; eauto.
  - destruct (handleClickOutside target (world t)) as [w'|] eqn:Hc; simpl; [|exact H].
    destruct (handleClickOutside_cases _ _ _ Hc) as [->| ->]; eauto.
  - assert (Hn : forall n, P (world (Nat.iter n tick t))).
    { induction n as [|n IH]; [exact H|].
      rewrite Nat.iter_succ. by apply (tick_invariant ms). }
    apply Hn.
Qed.

Lemma run_invariant (es : list Event) (t : Trace) :
  Forall ok es -> P (world t) -> P (world (run es t)).
Proof.
  revert t. induction es as [|e es IH]; intros t Hok H; simpl; [done|].
  inversion Hok; subst. apply IH; [done|]. by apply step_invariant.
Qed.

End RunInvariant.

Lemma Forall_anyEvent (es : list Event) : Forall anyEvent es.
Proof. by apply Forall_forall. Qed.

(** *** The stored state *)

Lemma run_stateOk (es : list Event) (t : Trace) :
  stateOk (selection (hook (world t))) ->
  stateOk (selection (hook (world (run es t)))).
Proof.
  apply (run_invariant anyEvent (fun w => stateOk (selection (hook w))));
    try (apply Forall_anyEvent); try done.
  - intros txt rs w _. by rewrite (proj1 (hook_select txt rs w)).
  - intros w _. by rewrite (proj1 (handleSelectionChange_selection w)).
  - intros _ w _ _. by left.
  - intros w _ _. by left.
  - intros _ w w' _ _ Hr.
    destruct (onSelectionTimeout_cases _ _ Hr) as [->|(live & r & _ & Hv & ->)].
    + by left.
    + right. simpl. destruct (validateSelection_true_text _ _ Hv) as [Hlen Hp].
      repeat split; eauto using trim_idempotent, not_onlySpaceOrPunctuation.
Qed.

(** C1. In every state the hook ever holds (after any events, from mounting on)
    [isValid] is true exactly when the text is not empty and the range and the
    rectangle are not null; the four fields are always written together: a state
    that is not valid is the empty state, with all four fields reset. *)
Theorem selection_state_consistent (es : list Event) :
  let s := selection (hook (world (run es init))) in
  (isValid s = true <-> text s <> [] /\ range s <> None /\ boundingRect s <> None)
  /\ (isValid s = false -> s = emptySelection).
Proof.
  assert (H : stateOk (selection (hook (world (run es init)))))
    by (apply run_stateOk; by left).
  simpl. destruct H as [->|(Hv & [r Hr] & [b Hb] & _ & Hlen & _)].
  - split; [|done]. simpl. split; [done|]. by intros [? _].
  - rewrite Hv, Hr, Hb. split; [|done]. split; [|done]. intros _.
    split; [|done]. intros Hnil. rewrite Hnil in Hlen. simpl in Hlen. lia.
Qed.

(** C10. Whenever the state is valid, the stored text is its own trim, has at
    least five code units, and holds a code point that is neither white space
    nor punctuation. *)
Theorem valid_text_is_meaningful (es : list Event) :
  let s := selection (hook (world (run es init))) in
  isValid s = true ->
  JSString.trim (text s) = text s
  /\ (5 <= length (text s))%nat
  /\ exists cp, cp ∈ JSString.codePoints (text s)
       /\ JSString.isWhiteSpace cp = false /\ JSString.isPunctuation cp = false.
Proof.
  assert (H : stateOk (selection (hook (world (run es init)))))
    by (apply run_stateOk; by left).
  simpl. destruct H as [->|(_ & _ & _ & Hm)]; [done|]. by intros _.
Qed.

Lemma valid_text_is_meaningful_witness :
  let s := selection (hook (world (run sampleRun init))) in
  isValid s = true
  /\ text s = JSString.lit "hello world"
  /\ (JSString.trim (text s) = text s
      /\ (5 <= length (text s))%nat
      /\ exists cp, cp ∈ JSString.codePoints (text s)
           /\ JSString.isWhiteSpace cp = false /\ JSString.isPunctuation cp = false).
Proof.
  split; [vm_compute; reflexivity|].
  split; [vm_compute; reflexivity|].
  apply (valid_text_is_meaningful sampleRun). vm_compute; reflexivity.
Defined.

(** ** The debounce timer *)

Local Close Scope N_scope.

Lemma filter_none {A} (p : A -> bool) (l : list A) :
  (forall x, In x l -> p x = false) -> List.filter p l = [].
Proof.
  induction l as [|a l IH]; simpl; [done|]. intros H.
  rewrite (H a) by (by left). apply IH. intros x Hx. apply H. by right.
Qed.

Lemma filter_all {A} (p : A -> bool) (l : list A) :
  (forall x, In x l -> p x = true) -> List.filter p l = l.
Proof.
  induction l as [|a l IH]; simpl; [done|]. intros H.
  rewrite (H a) by (by left). f_equal. apply IH. intros x Hx. apply H. by right.
Qed.

(** A notification leaves exactly one pending timer, due in 100 ms. *)
Lemma handleSelectionChange_arms (w : World) :
  timersTracked w ->
  handleSelectionChange w =
    withHook {| selection := selection (hook w);
                selectionTimeoutRef := Some (nextTimerId (clock w)) |}
      (withClock {| now := now (clock w);
                    timers := [{| timerId := nextTimerId (clock w);
                                  due := now (clock w) + 100 |}];
                    nextTimerId := Pos.succ (nextTimerId (clock w)) |} w).
Proof.
  intros Ht. unfold handleSelectionChange.
  destruct (selectionTimeoutRef (hook w)) as [id|] eqn:Href.
  - unfold clearTimeout, setTimeout, setTimeoutRef, withHook, withClock. simpl.
    rewrite filter_none; [done|].
    intros tm Htm. specialize (Ht tm Htm). rewrite Href in Ht.
    injection Ht as ->. by rewrite Pos.eqb_refl.
  - assert (timers (clock w) = []) as Hnil.
    { destruct (timers (clock w)) as [|tm l] eqn:Hl; [done|].
      specialize (Ht tm). rewrite Hl, Href in Ht. discriminate Ht. by left. }
    unfold setTimeout, setTimeoutRef, withHook, withClock. simpl. by rewrite Hnil.
Qed.

Lemma run_timersTracked (es : list Event) (t : Trace) :
  timersTracked (world t) -> timersTracked (world (run es t)).
Proof.
  apply (run_invariant anyEvent timersTracked); try (apply Forall_anyEvent); try done.
  - intros txt rs w _ H. unfold timersTracked.
    by rewrite (proj1 (hook_select txt rs w)), (proj2 (hook_select txt rs w)).
  - intros w _ H. rewrite (handleSelectionChange_arms w H).
    intros tm [<-|[]]. reflexivity.
  - intros _ w _ H tm Htm. apply (H tm). unfold elapse in Htm. simpl in Htm.
    by apply filter_In in Htm as [? _].
  - intros _ w w' _ H Hr tm.
    destruct (onSelectionTimeout_cases _ _ Hr) as [->|(live & r & _ & _ & ->)]; apply H.
Qed.

(** *** Ticks *)

Lemma tick_quiet (t : Trace) :
  (forall tm, In tm (timers (clock (world t))) -> S (now (clock (world t))) < due tm) ->
  tick t = continue t (withClock {| now := S (now (clock (world t)));
                                    timers := timers (clock (world t));
                                    nextTimerId := nextTimerId (clock (world t)) |}
                         (world t)).
Proof.
  intros H. unfold tick, elapse.
  rewrite filter_none, filter_all; [done| |].
  - intros tm Htm. apply negb_true_iff, Nat.leb_gt. by apply H.
  - intros tm Htm. apply Nat.leb_gt. by apply H.
Qed.

Lemma ticks_quiet (n : nat) (t : Trace) :
  (forall tm, In tm (timers (clock (world t))) -> now (clock (world t)) + n < due tm) ->
  Nat.iter n tick t
  = continue t (withClock {| now := now (clock (world t)) + n;
                             timers := timers (clock (world t));
                             nextTimerId := nextTimerId (clock (world t)) |}
                  (world t)).
Proof.
  induction n as [|n IH]; intros H.
  - destruct t as [[[nw tms nx] d h] ps un]. simpl. by rewrite Nat.add_0_r.
  - rewrite Nat.iter_succ, IH by (intros tm Htm; specialize (H tm Htm); lia).
    rewrite tick_quiet; simpl.
    + unfold continue, withClock. simpl. by rewrite Nat.add_succ_r.
    + intros tm Htm. specialize (H tm Htm). lia.
Qed.

Lemma tick_fires (t : Trace) (tm : Timer) :
  timers (clock (world t)) = [tm] ->
  due tm = S (now (clock (world t))) ->
  tick t = fire (continue t (withClock {| now := S (now (clock (world t)));
                                          timers := [];
                                          nextTimerId := nextTimerId (clock (world t)) |}
                               (world t))).
Proof.
  intros Htm Hdue. unfold tick, elapse. rewrite Htm. simpl.
  rewrite Hdue, Nat.leb_refl. reflexivity.
Qed.

(** The callback does not look at the clock. *)
Lemma onSelectionTimeout_withClock (c : Clock) (w : World) :
  onSelectionTimeout (withClock c w)
  = match onSelectionTimeout w with
    | Ok w' => Ok (withClock c w')
    | Throw e => Throw e
    end.
Proof.
  unfold onSelectionTimeout. simpl.
  destruct (_ || _); [done|].
  unfold getRangeAt0. simpl.
  destruct (liveRanges (document w)) as [|id ids]; [done|].
  destruct (ranges (document w) !! id) as [r|]; [simpl|done].
  by destruct (validateSelection _ _) as [[|]|].
Qed.

(** *** Bursts of notifications *)

Lemma run_app (es1 es2 : list Event) (t : Trace) :
  run (es1 ++ es2) t = run es2 (run es1 t).
Proof. apply fold_left_app. Qed.

Lemma notify_arms (s : Sel) (t : Trace) :
  timersTracked (world t) ->
  let w := select (fst s) (snd s) (world t) in
  run (notify s) t
  = continue t
      (withHook {| selection := selection (hook (world t));
                   selectionTimeoutRef := Some (nextTimerId (clock (world t))) |}
         (withClock {| now := now (clock (world t));
                       timers := [{| timerId := nextTimerId (clock (world t));
                                     due := now (clock (world t)) + 100 |}];
                       nextTimerId := Pos.succ (nextTimerId (clock (world t))) |} w)).
Proof.
  intros Ht w. unfold notify, run. simpl.
  destruct (hook_select (fst s) (snd s) (world t)) as [Hh Hc]. fold w in Hh, Hc.
  rewrite handleSelectionChange_arms.
  - fold w. by rewrite Hh, Hc.
  - unfold timersTracked. fold w. by rewrite Hh, Hc.
Qed.

(** A notification followed by less than 100 ms of waiting: the callback has
    not run, the state is the old one, and the only pending timer is the new
    one. *)
Lemma notify_then_wait (s : Sel) (gap : nat) (t : Trace) :
  timersTracked (world t) ->
  gap < 100 ->
  let t' := run (notify s ++ [Wait gap]) t in
  passes t' = passes t
  /\ uncaught t' = uncaught t
  /\ selection (hook (world t')) = selection (hook (world t))
  /\ document (world t') = document (select (fst s) (snd s) (world t))
  /\ timersTracked (world t').
Proof.
  intros Ht Hgap t'. unfold t'. rewrite run_app, (notify_arms s t Ht).
  unfold run. simpl fold_left. unfold step.
  rewrite ticks_quiet.
  - simpl. repeat split; try done. intros tm [<-|[]]. reflexivity.
  - simpl. intros tm [<-|[]]. simpl. lia.
Qed.

Lemma burst_silent (b : list (Sel * nat)) (t : Trace) :
  timersTracked (world t) ->
  Forall (fun x => snd x < 100) b ->
  let t' := run (burst b) t in
  passes t' = passes t
  /\ selection (hook (world t')) = selection (hook (world t))
  /\ timersTracked (world t').
Proof.
  revert t. induction b as [|[s gap] b IH]; intros t Ht Hb; [done|].
  inversion Hb as [|x l Hgap Hb']; subst. simpl in Hgap.
  cbv zeta.
  change (burst ((s, gap) :: b)) with ((notify s ++ [Wait gap]) ++ burst b).
  rewrite run_app.
  destruct (notify_then_wait s gap t Ht Hgap) as (Hp & _ & Hs & _ & Ht').
  destruct (IH _ Ht' Hb') as (Hp' & Hs' & Ht'').
  repeat split; [congruence|congruence|done].
Qed.

(** C4. Trailing-edge debounce. After any history, take a burst of notifications
    in which each one but the last is followed by the next within less than
    100 ms. Up to the last dispatch, and for less than 100 ms after it, the
    callback has not run and the state is what it was before the burst. Once
    100 ms have passed after the last dispatch the callback has run exactly
    once; it read the selection as it stood at the last dispatch, and the state
    is what it computes from that selection. *)
Theorem debounce_trailing_edge
    (es0 : list Event) (b : list (Sel * nat)) (s : Sel) (d : nat) :
  Forall (fun x => snd x < 100) b ->
  let t0 := run es0 init in
  let t1 := run (burst b ++ notify s) t0 in
  let t2 := run [Wait d] t1 in
  (passes t1 = passes t0
   /\ selection (hook (world t1)) = selection (hook (world t0)))
  /\ (d < 100 ->
      passes t2 = passes t0
      /\ selection (hook (world t2)) = selection (hook (world t0)))
  /\ (100 <= d ->
      passes t2 = passes t0 ++ [readSelection (world t1)]
      /\ hook (world t2) = hook (settled (world t1))
      /\ document (world t2) = document (settled (world t1))).
Proof.
  intros Hb t0 t1 t2.
  assert (Ht0 : timersTracked (world t0)) by (apply run_timersTracked; intros tm []).
  destruct (burst_silent b t0 Ht0 Hb) as (Hp & Hs & Ht).
  set (tb := run (burst b) t0) in *.
  assert (Ht1 : t1 = run (notify s) tb) by (unfold t1, tb; apply run_app).
  pose proof (notify_arms s tb Ht) as Harm. cbv zeta in Harm. rewrite <- Ht1 in Harm.
  split; [|split].
  - rewrite Harm. simpl. by rewrite Hp, Hs.
  - intros Hd. unfold t2, run. simpl fold_left. unfold step.
    rewrite ticks_quiet.
    + simpl. rewrite Harm. simpl. by rewrite Hp, Hs.
    + rewrite Harm. simpl. intros tm [<-|[]]. simpl. lia.
  - intros Hd. unfold t2, run. simpl fold_left. unfold step.
    replace d with ((d - 100) + (1 + 99)) by lia.
    rewrite Nat.iter_add, Nat.iter_add.
    rewrite (ticks_quiet 99 t1)
      by (rewrite Harm; simpl; intros tm [<-|[]]; simpl; lia).
    change (Nat.iter 1 tick ?x) with (tick x).
    erewrite tick_fires; [| rewrite Harm; reflexivity | rewrite Harm; simpl; lia].
    set (c := {| now := S _; timers := []; nextTimerId := _ |}).
    unfold fire. simpl world. rewrite !onSelectionTimeout_withClock.
    unfold settled.
    assert (Hp1 : passes t1 = passes t0) by (rewrite Harm; simpl; exact Hp).
    destruct (onSelectionTimeout (world t1)) as [w'|e]; simpl handled;
      (rewrite ticks_quiet; [| simpl; intros tm []]); simpl; rewrite Hp1; repeat split.
Qed.

Lemma debounce_trailing_edge_witness :
  Forall (fun x => snd x < 100) dragging
  /\ let t1 := run (burst dragging ++ notify released) init in
     let t2 := run [Wait 100] t1 in
     passes t1 = []
     /\ selection (hook (world t1)) = emptySelection
     /\ passes t2 = [released]
     /\ text (selection (hook (world t2))) = JSString.lit "hello world".
Proof.
  assert (Hb : Forall (fun x => snd x < 100) dragging)
    by (repeat constructor; simpl; lia).
  split; [exact Hb|].
  destruct (debounce_trailing_edge [] dragging released 100 Hb) as ((Hp1 & Hs1) & _ & H).
  destruct (H (le_n 100)) as (Hp2 & Hh & _).
  cbv zeta. split; [exact Hp1|]. split; [exact Hs1|]. split.
  - etransitivity; [exact Hp2|]. vm_compute. reflexivity.
  - etransitivity; [exact (f_equal (fun h => text (selection h)) Hh)|].
    vm_compute. reflexivity.
Defined.

(** ** The stored range *)

Local Open Scope positive_scope.

Lemma allocRanges_spec (rs : list Range) (next : positive) (h : gmap positive Range) :
  let '(ids, next', h') := allocRanges rs next h in
  next <= next'
  /\ (forall id, In id ids -> next <= id /\ id < next')
  /\ (forall k, k < next -> h' !! k = h !! k).
Proof.
  revert next h. induction rs as [|r rs IH]; intros next h; simpl.
  - split; [lia|]. split; [intros id []|done].
  - specialize (IH (Pos.succ next) (<[next := r]> h)).
    destruct (allocRanges rs (Pos.succ next) (<[next := r]> h)) as [[ids next'] h'].
    destruct IH as (Hle & Hids & Hh). split; [lia|]. split.
    + intros id [<-|Hin]; [lia|]. specialize (Hids id Hin). lia.
    + intros k Hk. rewrite Hh by lia. apply lookup_insert_ne. lia.
Qed.

Lemma select_keeps (txt : JSString.t) (rs : list Range) (w : World) :
  liveBelow (document w) ->
  liveBelow (document (select txt rs w))
  /\ forall rid, rid < nextRangeId (document w) ->
       separate rid (document (select txt rs w))
       /\ ranges (document (select txt rs w)) !! rid = ranges (document w) !! rid.
Proof.
  intros Hl. unfold select.
  pose proof (allocRanges_spec rs (nextRangeId (document w)) (ranges (document w))) as H.
  destruct (allocRanges _ _ _) as [[ids next'] h']. destruct H as (Hle & Hids & Hh).
  simpl. split.
  - intros id Hin. simpl in *. by apply Hids.
  - intros rid Hrid. split; [split|]; simpl.
    + lia.
    + intros Hin. specialize (Hids rid Hin). lia.
    + by apply Hh.
Qed.

Lemma lookup_alter_others (f : Range -> Range) (ids : list positive)
    (h : gmap positive Range) (rid : positive) :
  ~ In rid ids -> foldr (fun id h => alter f id h) h ids !! rid = h !! rid.
Proof.
  induction ids as [|id ids IH]; simpl; [done|]. intros Hn.
  rewrite lookup_alter_ne by (intros ->; apply Hn; by left).
  apply IH. intros Hin. apply Hn. by right.
Qed.

Lemma adjustLive_keeps (f : Range -> Range) (txt : JSString.t) (w : World) (rid : positive) :
  separate rid (document w) ->
  separate rid (document (adjustLive f txt w))
  /\ ranges (document (adjustLive f txt w)) !! rid = ranges (document w) !! rid.
Proof.
  intros [Hlt Hn]. unfold adjustLive. simpl. split; [done|].
  by apply lookup_alter_others.
Qed.

Lemma cloneRange_keeps (r : Range) (w : World) :
  liveBelow (document w) ->
  liveBelow (document (snd (cloneRange r w)))
  /\ separate (nextRangeId (document w)) (document (snd (cloneRange r w)))
  /\ ranges (document (snd (cloneRange r w))) !! nextRangeId (document w) = Some r
  /\ forall rid, separate rid (document w) ->
       separate rid (document (snd (cloneRange r w)))
       /\ ranges (document (snd (cloneRange r w))) !! rid = ranges (document w) !! rid.
Proof.
  intros Hl. unfold cloneRange. simpl. split; [|split; [|split]].
  - intros id Hin. specialize (Hl id Hin). simpl. lia.
  - split; simpl; [lia|]. intros Hin. specialize (Hl _ Hin). lia.
  - apply lookup_insert_eq.
  - intros rid [Hlt Hn]. split; [split; simpl; [lia|done]|].
    apply lookup_insert_ne. lia.
Qed.

Lemma run_rangesFresh (es : list Event) (t : Trace) :
  rangesFresh (world t) -> rangesFresh (world (run es t)).
Proof.
  apply (run_invariant anyEvent rangesFresh); try (apply Forall_anyEvent).
  - intros txt rs w _ [Hl Hs]. destruct (select_keeps txt rs w Hl) as [Hl' Hk].
    split; [done|]. intros rid. rewrite (proj1 (hook_select txt rs w)). intros Hr.
    destruct (Hs rid Hr) as [[Hlt Hn] Hsome].
    destruct (Hk rid Hlt) as [Hsep Heq]. by rewrite Heq.
  - intros f txt w _ [Hl Hs]. split; [exact Hl|]. intros rid Hr.
    destruct (Hs rid Hr) as [Hsep Hsome].
    destruct (adjustLive_keeps f txt w rid Hsep) as [Hsep' Heq]. by rewrite Heq.
  - intros n w _ [Hl Hs]. split; [exact Hl|]. intros rid Hr.
    destruct (Hs rid Hr) as [Hsep [r Hsome]]. split; [exact Hsep|].
    unfold removeNode. simpl. rewrite lookup_fmap, Hsome. by eexists.
  - intros w _ [Hl Hs]. destruct (handleSelectionChange_selection w) as [Hsel Hdoc].
    unfold rangesFresh. by rewrite Hsel, Hdoc.
  - intros _ w _ _. split; [intros id []|done].
  - intros w _ _. split; [intros id []|done].
  - intros _ w _ H. exact H.
  - intros _ w w' _ [Hl Hs] Hr.
    destruct (onSelectionTimeout_cases _ _ Hr) as [->|(live & r & _ & _ & ->)].
    + split; [exact Hl|done].
    + destruct (cloneRange_keeps r w Hl) as (Hl' & Hsep & Hin & _).
      split; [exact Hl'|]. simpl. intros rid [= <-]. split; [exact Hsep|].
      unfold cloneRange in Hin. simpl in Hin. by eexists.
Qed.

Lemma run_cloneKept (rid : positive) (r0 : Range) (es : list Event) (t : Trace) :
  Forall keepsDom es -> cloneKept rid r0 (world t) -> cloneKept rid r0 (world (run es t)).
Proof.
  apply (run_invariant keepsDom (cloneKept rid r0)).
  - intros txt rs w _ (Hl & [Hlt Hn] & Hr). destruct (select_keeps txt rs w Hl) as [Hl' Hk].
    destruct (Hk rid Hlt) as [Hsep Heq]. repeat split; try done; try apply Hsep.
    by rewrite Heq.
  - intros f txt w _ (Hl & Hsep & Hr).
    destruct (adjustLive_keeps f txt w rid Hsep) as [Hsep' Heq].
    repeat split; try done; try apply Hsep'. by rewrite Heq.
  - intros n w [].
  - intros w _ H. destruct (handleSelectionChange_selection w) as [_ Hdoc].
    unfold cloneKept. by rewrite Hdoc.
  - intros _ w _ (Hl & [Hlt Hn] & Hr).
    split; [intros id []|]. split; [split; [exact Hlt|intros []]|exact Hr].
  - intros w _ (Hl & [Hlt Hn] & Hr).
    split; [intros id []|]. split; [split; [exact Hlt|intros []]|exact Hr].
  - intros _ w _ H. exact H.
  - intros _ w w' _ (Hl & Hsep & Hr) Ht.
    destruct (onSelectionTimeout_cases _ _ Ht) as [->|(live & r & _ & _ & ->)]; [done|].
    destruct (cloneRange_keeps r w Hl) as (Hl' & _ & _ & Hk).
    destruct (Hk rid Hsep) as [Hsep' Heq]. repeat split; try done; try apply Hsep'.
    simpl. unfold cloneRange in Heq. simpl in Heq. by rewrite Heq.
Qed.

Lemma run_browser_keeps_hook (h : Hook) (es : list Event) (t : Trace) :
  Forall browserEvent es -> hook (world t) = h -> hook (world (run es t)) = h.
Proof.
  apply (run_invariant browserEvent (fun w => hook w = h)); try (by intros; exfalso);
    try (intros; by match goal with H : browserEvent _ |- _ => destruct H end).
  intros txt rs w _ <-. apply hook_select.
Qed.

(** C6, as the hook has it. The range a valid state refers to is a [Range] object
    of its own, made by [cloneRange], none of the selection's ranges, and the
    rectangle is a copy of six numbers. Whatever happens to the selection
    afterwards (replaced, changed in place, emptied), and whatever the hook does,
    that object keeps its boundary points as long as no node is removed from the
    document; and nothing the browser does changes what the state holds. The
    object is still a live range: removing nodes moves its boundary points. *)
Theorem stored_range_is_separate_clone (es es' : list Event) (rid : positive) :
  let t := run es init in
  range (selection (hook (world t))) = Some rid ->
  ~ In rid (liveRanges (document (world t)))
  /\ is_Some (ranges (document (world t)) !! rid)
  /\ (Forall keepsDom es' ->
      ranges (document (world (run es' t))) !! rid = ranges (document (world t)) !! rid)
  /\ (Forall browserEvent es' ->
      selection (hook (world (run es' t))) = selection (hook (world t))).
Proof.
  intros t Hr.
  assert (Hf : rangesFresh (world t)).
  { apply run_rangesFresh. split; [intros id []|done]. }
  destruct Hf as [Hl Hs]. destruct (Hs rid Hr) as [[Hlt Hn] [r0 Hr0]].
  split; [exact Hn|]. split; [by eexists|]. split.
  - intros Hk. rewrite Hr0.
    by apply (run_cloneKept rid r0 es' t Hk).
  - intros Hb. by rewrite (run_browser_keeps_hook (hook (world t)) es' t Hb).
Qed.

Lemma stored_range_is_separate_clone_witness :
  let t := run sampleRun init in
  range (selection (hook (world t))) = Some 2
  /\ Forall keepsDom afterwards
  /\ Forall browserEvent afterwards
  /\ ranges (document (world (run afterwards t))) !! 2 = ranges (document (world t)) !! 2
  /\ selection (hook (world (run afterwards t))) = selection (hook (world t)).
Proof.
  assert (Hr : range (selection (hook (world (run sampleRun init)))) = Some 2)
    by (vm_compute; reflexivity).
  assert (Hk : Forall keepsDom afterwards) by (repeat constructor).
  assert (Hb : Forall browserEvent afterwards) by (repeat constructor).
  destruct (stored_range_is_separate_clone sampleRun afterwards 2 Hr) as (_ & _ & H1 & H2).
  cbv zeta. split; [exact Hr|]. split; [exact Hk|]. split; [exact Hb|].
  split; [exact (H1 Hk)|exact (H2 Hb)].
Defined.

(** C6, as stated, fails: with the text of message A selected and stored, removing
    message A from the document moves the start of the stored range from the text
    node (6) to the body (3), while the state still holds the same reference. *)
Lemma stored_range_follows_dom_removal :
  let t := run sampleRun init in
  let t' := run [RemoveNode 4] t in
  isValid (selection (hook (world t))) = true
  /\ range (selection (hook (world t))) = Some 2
  /\ selection (hook (world t')) = selection (hook (world t))
  /\ Dom.nodeId ∘ startContainer <$> ranges (document (world t)) !! 2 = Some 6
  /\ Dom.nodeId ∘ startContainer <$> ranges (document (world t')) !! 2 = Some 3
  /\ ranges (document (world t')) !! 2 <> ranges (document (world t)) !! 2.
Proof.
  cbv zeta.
  assert (H6 : Dom.nodeId ∘ startContainer
               <$> ranges (document (world (run sampleRun init))) !! 2 = Some 6)
    by (vm_compute; reflexivity).
  assert (H3 : Dom.nodeId ∘ startContainer
               <$> ranges (document (world (run [RemoveNode 4] (run sampleRun init)))) !! 2
               = Some 3)
    by (vm_compute; reflexivity).
  split; [vm_compute; reflexivity|]. split; [vm_compute; reflexivity|].
  split; [vm_compute; reflexivity|]. split; [exact H6|]. split; [exact H3|].
  intros Heq. rewrite Heq, H6 in H3. discriminate H3.
Qed.

(** * Further properties of the validator *)

Local Close Scope positive_scope.
Local Close Scope N_scope.

Lemma bool_decide_is_Some_false {A} (o : option A) :
  bool_decide (is_Some o) = false <-> o = None.
Proof.
  destruct o as [a|]; simpl; split; done.
Qed.

Lemma trim_long_truthy (s : JSString.t) :
  5 <= length (JSString.trim s) -> JSString.truthy s = true.
Proof. destruct s; simpl; [lia|done]. Qed.

(** X1. [validateSelection] accepts exactly when the trimmed text has five code
    units or more and is not only white space and punctuation, the common
    ancestor lies in an assistant message with no [.dot-falling] descendant, and
    the start and the end lie in that same message. *)
Theorem validateSelection_accepts_iff (selectedText : JSString.t) (r : Range) :
  validateSelection selectedText (Some r) = Ok true <->
  5 <= length (JSString.trim selectedText)
  /\ JSString.onlySpaceOrPunctuation (JSString.trim selectedText) = false
  /\ exists message startMessage endMessage,
       messageOf (commonAncestorContainer r) = Ok (Some message)
       /\ Dom.querySelector dotFalling message = None
       /\ messageOf (startContainer r) = Ok startMessage
       /\ messageOf (endContainer r) = Ok endMessage
       /\ Dom.strictEq startMessage endMessage = true
       /\ Dom.strictEq startMessage (Some message) = true.
Proof.
  rewrite validateSelection_unfold. split.
  - destruct (negb _); [done|].
    destruct (Nat.ltb_spec (length (JSString.trim selectedText)) 5) as [|Hlen]; [done|].
    destruct (JSString.onlySpaceOrPunctuation _); [done|].
    destruct (messageOf (commonAncestorContainer r)) as [[m|]|]; simpl; try done.
    destruct (bool_decide _) eqn:Hq; [done|]. apply bool_decide_is_Some_false in Hq.
    destruct (messageOf (startContainer r)) as [sm|]; simpl; [|done].
    destruct (messageOf (endContainer r)) as [em|]; simpl; [|done].
    intros [= H]. apply andb_true_iff in H as [H1 H2].
    split; [done|]. split; [done|]. by exists m, sm, em.
  - intros (Hlen & Hp & m & sm & em & Hc & Hq & Hs & He & H1 & H2).
    rewrite (trim_long_truthy _ Hlen). simpl.
    destruct (Nat.ltb_spec (length (JSString.trim selectedText)) 5); [lia|].
    rewrite Hp, Hc. simpl. rewrite Hq. simpl. rewrite Hs, He. simpl.
    by rewrite H1, H2.
Qed.

(** X2. A selection whose common ancestor lies in an assistant message that has
    a [.dot-falling] descendant is rejected, whatever the text and wherever the
    start and the end are: these are not even looked at. *)
Theorem validateSelection_rejects_streaming
    (selectedText : JSString.t) (r : Range) (message : Dom.Node) :
  messageOf (commonAncestorContainer r) = Ok (Some message) ->
  is_Some (Dom.querySelector dotFalling message) ->
  validateSelection selectedText (Some r) = Ok false.
Proof.
  intros Hc Hq. rewrite validateSelection_unfold, Hc.
  destruct (negb _); [done|]. destruct (_ <? _); [done|].
  destruct (JSString.onlySpaceOrPunctuation _); [done|]. simpl.
  by rewrite bool_decide_eq_true_2.
Qed.

Lemma validateSelection_rejects_streaming_witness :
  messageOf (commonAncestorContainer (Sample.rangeIn Sample.nTextC))
    = Ok (Some (Sample.at_ [Sample.body; Sample.html; Sample.doc] Sample.messageC))
  /\ validateSelection Sample.hello (Some (Sample.rangeIn Sample.nTextC)) = Ok false.
Proof.
  split; [reflexivity|].
  apply (validateSelection_rejects_streaming Sample.hello (Sample.rangeIn Sample.nTextC)
           (Sample.at_ [Sample.body; Sample.html; Sample.doc] Sample.messageC));
    [reflexivity|]. by eexists.
Defined.

(** X3. A selection whose common ancestor lies in no assistant message (a user
    message, the page around the chat) is rejected without a look at its start
    and end, so also when those are nodes on which [closest] would throw. *)
Theorem validateSelection_rejects_outside (selectedText : JSString.t) (r : Range) :
  messageOf (commonAncestorContainer r) = Ok None ->
  validateSelection selectedText (Some r) = Ok false.
Proof.
  intros Hc. rewrite validateSelection_unfold, Hc.
  destruct (negb _); [done|]. destruct (_ <? _); [done|].
  by destruct (JSString.onlySpaceOrPunctuation _).
Qed.

Lemma validateSelection_rejects_outside_witness :
  validateSelection Sample.hello
    (Some {| startContainer := Sample.nDoc; endContainer := Sample.nDoc;
             commonAncestorContainer := Sample.nTextU;
             getBoundingClientRect := Sample.rect0 |}) = Ok false.
Proof. apply validateSelection_rejects_outside. reflexivity. Defined.

(** X4. White space around the selected text does not matter: the validator
    gives the same answer for a text and for its trim. *)
Theorem validateSelection_trim (selectedText : JSString.t) (range : option Range) :
  validateSelection (JSString.trim selectedText) range = validateSelection selectedText range.
Proof.
  destruct range as [r|]; [|done]. rewrite !validateSelection_unfold, trim_idempotent.
  destruct (Nat.ltb_spec (length (JSString.trim selectedText)) 5) as [Hlen|Hlen].
  - by destruct (negb (JSString.truthy (JSString.trim selectedText))),
               (negb (JSString.truthy selectedText)).
  - rewrite (trim_long_truthy _ Hlen).
    assert (Ht : JSString.truthy (JSString.trim selectedText) = true)
      by (destruct (JSString.trim selectedText); [simpl in Hlen; lia|done]).
    by rewrite Ht.
Qed.

(** * Further properties of the hook *)

Lemma allocRanges_allocated (rs : list Range) (next : positive) (h : gmap positive Range) :
  forall id, In id (fst (fst (allocRanges rs next h))) ->
    is_Some (snd (allocRanges rs next h) !! id).
Proof.
  revert next h. induction rs as [|r rs IH]; intros next h id; simpl; [intros []|].
  pose proof (allocRanges_spec rs (Pos.succ next) (<[next := r]> h)) as Hspec.
  specialize (IH (Pos.succ next) (<[next := r]> h) id).
  destruct (allocRanges rs (Pos.succ next) (<[next := r]> h)) as [[ids next'] h'].
  simpl in *. destruct Hspec as (_ & _ & Hh).
  intros [<-|Hin]; [|by apply IH].
  rewrite Hh by lia. rewrite lookup_insert_eq. by eexists.
Qed.

Lemma alter_all_is_Some (f : Range -> Range) (ids : list positive)
    (h : gmap positive Range) (k : positive) :
  is_Some (h !! k) -> is_Some (foldr (fun id h => alter f id h) h ids !! k).
Proof.
  intros Hk. induction ids as [|id ids IH]; simpl; [done|].
  rewrite lookup_alter. case_decide; [|exact IH]. subst k. rewrite fmap_is_Some. exact IH.
Qed.

Lemma run_liveAllocated (es : list Event) (t : Trace) :
  liveAllocated (document (world t)) -> liveAllocated (document (world (run es t))).
Proof.
  apply (run_invariant anyEvent (fun w => liveAllocated (document w)));
    try (apply Forall_anyEvent).
  - intros txt rs w _ _ id. unfold select.
    pose proof (allocRanges_allocated rs (nextRangeId (document w)) (ranges (document w)) id)
      as H.
    by destruct (allocRanges _ _ _) as [[ids next] h].
  - intros f txt w _ H id Hin. unfold adjustLive. simpl. apply alter_all_is_Some.
    by apply H.
  - intros n w _ H id Hin. unfold removeNode. simpl. rewrite lookup_fmap.
    rewrite fmap_is_Some. by apply H.
  - intros w _ H. by rewrite (proj2 (handleSelectionChange_selection w)).
  - intros _ w _ _ id [].
  - intros w _ _ id [].
  - intros _ w _ H. exact H.
  - intros _ w w' _ H Hr.
    destruct (onSelectionTimeout_cases _ _ Hr) as [->|(live & r & _ & _ & ->)]; [done|].
    intros id Hin. unfold cloneRange. simpl. rewrite lookup_insert.
    case_decide; [by eexists|]. by apply H.
Qed.

(** X5. In any run, the timer callback returns whenever the selection is empty
    or its first range has, as its three containers, elements or text nodes
    inside an element; [getRangeAt(0)] is reached only with a range to give. *)
Theorem onSelectionTimeout_returns (es : list Event) :
  let w := world (run es init) in
  (forall id r, getRangeAt0 w = Ok (id, r) ->
     hasElement (commonAncestorContainer r)
     /\ hasElement (startContainer r)
     /\ hasElement (endContainer r)) ->
  exists w', onSelectionTimeout w = Ok w'.
Proof.
  intros w H.
  assert (Ha : liveAllocated (document w)) by (apply run_liveAllocated; intros id []).
  unfold onSelectionTimeout. destruct (_ || _) eqn:Hempty; [eauto|].
  apply orb_false_iff in Hempty as [_ Hcount].
  unfold getRangeAt0 in *.
  destruct (liveRanges (document w)) as [|id ids] eqn:Hl; [done|].
  destruct (Ha id) as [r Hr]; [rewrite Hl; by left|]. rewrite Hr in *. simpl.
  destruct (H id r eq_refl) as (Hc & Hs & He).
  destruct (validateSelection_returns (liveText (document w)) r Hc Hs He) as [b ->].
  simpl. destruct b; [|eauto]. destruct (cloneRange r w). eauto.
Qed.

Lemma onSelectionTimeout_returns_witness :
  exists w', onSelectionTimeout
               (world (run [Select Sample.hello [Sample.rangeIn Sample.nTextA]] init)) = Ok w'.
Proof.
  apply (onSelectionTimeout_returns [Select Sample.hello [Sample.rangeIn Sample.nTextA]]).
  intros id r Hr. vm_compute in Hr. injection Hr as <- <-.
  repeat split; try (by eexists); intros e [= <-]; reflexivity.
Defined.

(** X6. A click on an element leaves the hook untouched when the element is in
    an assistant message or in the follow-up button; any other element click
    empties the selection and the state at once. In neither case is the pending
    timer touched, and [handleClickOutside] does not throw. *)
Theorem handleClickOutside_element (target : Dom.Node) (w : World) :
  Dom.isElement target = true ->
  handleClickOutside target w
  = Ok match Dom.closest assistantMessage target, Dom.closest followupButton target with
       | None, None => clearSelection w
       | _, _ => w
       end
  /\ forall w', handleClickOutside target w = Ok w' -> clock w' = clock w.
Proof.
  intros He.
  assert (H : handleClickOutside target w
              = Ok match Dom.closest assistantMessage target,
                         Dom.closest followupButton target with
                   | None, None => clearSelection w
                   | _, _ => w
                   end).
  { unfold handleClickOutside, Dom.callClosest. rewrite He. simpl.
    by destruct (Dom.closest assistantMessage target), (Dom.closest followupButton target). }
  split; [exact H|]. intros w' Hw. rewrite H in Hw. injection Hw as <-.
  by destruct (Dom.closest assistantMessage target), (Dom.closest followupButton target).
Qed.

Lemma handleClickOutside_element_witness :
  handleClickOutside Sample.nMessageA (world init) = Ok (world init)
  /\ handleClickOutside Sample.nBody (world init) = Ok (clearSelection (world init)).
Proof.
  destruct (handleClickOutside_element Sample.nMessageA (world init) eq_refl) as [Ha _].
  destruct (handleClickOutside_element Sample.nBody (world init) eq_refl) as [Hb _].
  split; [etransitivity; [exact Ha|] | etransitivity; [exact Hb|]];
    vm_compute; reflexivity.
Defined.

Lemma run_stays_empty (es : list Event) (t : Trace) :
  Forall noReselect es ->
  liveText (document (world t)) = [] /\ selection (hook (world t)) = emptySelection ->
  liveText (document (world (run es t))) = []
  /\ selection (hook (world (run es t))) = emptySelection.
Proof.
  apply (run_invariant noReselect
           (fun w => liveText (document w) = [] /\ selection (hook w) = emptySelection)).
  - by intros txt rs w [].
  - by intros f txt w [].
  - by intros n w _ [? ?].
  - intros w _ [? ?]. by destruct (handleSelectionChange_selection w) as [-> ->].
  - done.
  - done.
  - by intros _ w _ [? ?].
  - intros _ w w' _ [Htxt Hsel] Hr. unfold onSelectionTimeout in Hr.
    rewrite Htxt in Hr. simpl in Hr. injection Hr as <-.
    split; [exact Htxt|reflexivity].
Qed.

(** X7. After [clearSelection] the state stays empty for as long as the document
    selection is not changed again: a debounce timer that was pending when the
    selection was cleared still fires, finds no selected text and stores the
    empty state; clicks and further notifications do not bring the old selection
    back either. *)
Theorem clearSelection_stays_empty (es es' : list Event) :
  Forall noReselect es' ->
  selection (hook (world (run (es ++ Clear :: es') init))) = emptySelection.
Proof.
  intros Hok. rewrite run_app. change (run (Clear :: es') ?t) with (run es' (step t Clear)).
  by apply run_stays_empty.
Qed.

Lemma clearSelection_stays_empty_witness :
  Forall noReselect [Wait 100; SelectionChange; Wait 100]
  /\ timers (clock (world (run (pendingRun ++ [Clear]) init)))
     = [{| timerId := 1; due := 100 |}]
  /\ selection (hook (world (run (pendingRun ++ Clear :: [Wait 100; SelectionChange; Wait 100])
                               init))) = emptySelection.
Proof.
  assert (Hok : Forall noReselect [Wait 100; SelectionChange; Wait 100])
    by (repeat constructor).
  split; [exact Hok|]. split; [vm_compute; reflexivity|].
  exact (clearSelection_stays_empty pendingRun [Wait 100; SelectionChange; Wait 100] Hok).
Defined.

Lemma filter_length {A} (p : A -> bool) (l : list A) :
  length (List.filter p l) <= length l.
Proof.
  induction l as [|a l IH]; simpl; [lia|]. destruct (p a); simpl; lia.
Qed.

(** X8. At every moment of every run at most one debounce timer is pending, and
    it is the one [selectionTimeoutRef] holds. *)
Theorem single_pending_timer (es : list Event) :
  let w := world (run es init) in
  length (timers (clock w)) <= 1
  /\ forall tm, In tm (timers (clock w)) -> selectionTimeoutRef (hook w) = Some (timerId tm).
Proof.
  apply (run_invariant anyEvent
           (fun w => length (timers (clock w)) <= 1 /\ timersTracked w));
    try (apply Forall_anyEvent).
  - intros txt rs w _. unfold timersTracked.
    by destruct (hook_select txt rs w) as [-> ->].
  - done.
  - done.
  - intros w _ [_ Ht]. rewrite (handleSelectionChange_arms w Ht). split; [simpl; lia|].
    intros tm [<-|[]]. reflexivity.
  - done.
  - done.
  - intros _ w _ [Hlen Ht]. unfold elapse. simpl. split.
    + etransitivity; [apply filter_length|exact Hlen].
    + intros tm Htm. apply (Ht tm). by apply filter_In in Htm as [? _].
  - intros _ w w' _ [Hlen Ht] Hr.
    by destruct (onSelectionTimeout_cases _ _ Hr) as [->|(live & r & _ & _ & ->)].
  - split; [simpl; lia|intros tm []].
Qed.

(** *** Runs without a notification *)

(** With no timer pending and no notification, no timer appears and the callback
    does not run; the events that call no handler also leave the hook as it
    is. *)
Lemma quiet_step (e : Event) (t : Trace) :
  noNotification e ->
  timers (clock (world t)) = [] ->
  timers (clock (world (step t e))) = []
  /\ passes (step t e) = passes t
  /\ (selection (hook (world t)) = emptySelection ->
      selection (hook (world (step t e))) = emptySelection)
  /\ (afterUnmount e ->
      hook (world (step t e)) = hook (world t) /\ uncaught (step t e) = uncaught t).
Proof.
  intros Hn Ht. destruct e as [txt rs|f txt|n| |target| |ms]; simpl.
  - destruct (hook_select txt rs (world t)) as [-> ->]. by rewrite Ht.
  - by rewrite Ht.
  - by rewrite Ht.
  - destruct Hn.
  - destruct (handleClickOutside target (world t)) as [w'|] eqn:Hc; simpl.
    + by destruct (handleClickOutside_cases _ _ _ Hc) as [->| ->].
    + done.
  - done.
  - rewrite ticks_quiet by (rewrite Ht; intros tm []). simpl. by rewrite Ht.
Qed.

Lemma quiet_run (es : list Event) (t : Trace) :
  Forall noNotification es ->
  timers (clock (world t)) = [] ->
  timers (clock (world (run es t))) = []
  /\ passes (run es t) = passes t
  /\ (selection (hook (world t)) = emptySelection ->
      selection (hook (world (run es t))) = emptySelection)
  /\ (Forall afterUnmount es ->
      hook (world (run es t)) = hook (world t) /\ uncaught (run es t) = uncaught t).
Proof.
  revert t. induction es as [|e es IH]; intros t Hn Ht; [done|].
  inversion Hn as [|e' es'' He Hes]; subst.
  destruct (quiet_step e t He Ht) as (Ht' & Hp & Hs & Hu).
  destruct (IH (step t e) Hes Ht') as (Ht'' & Hp' & Hs' & Hu').
  change (run (e :: es) t) with (run es (step t e)).
  split; [exact Ht''|]. split; [congruence|]. split; [auto|].
  intros Hau. inversion Hau as [|e' es'' Hae Haes]; subst.
  destruct (Hu Hae) as [Hh1 Hu1]. destruct (Hu' Haes) as [Hh2 Hu2].
  split; congruence.
Qed.

(** X9. Without a [selectionchange] notification the hook never reads the
    selection and its state stays empty, whatever is selected, however long one
    waits and wherever one clicks. *)
Theorem no_notification_no_pass (es : list Event) :
  Forall noNotification es ->
  passes (run es init) = []
  /\ selection (hook (world (run es init))) = emptySelection.
Proof.
  intros Hn. destruct (quiet_run es init Hn eq_refl) as (_ & Hp & Hs & _).
  split; [exact Hp|by apply Hs].
Qed.

Lemma no_notification_no_pass_witness :
  let es := [Select Sample.hello [Sample.rangeIn Sample.nTextA]; Wait 500;
             Click Sample.nMessageA; Wait 500] in
  Forall noNotification es
  /\ passes (run es init) = []
  /\ selection (hook (world (run es init))) = emptySelection.
Proof.
  assert (Hn : Forall noNotification
                 [Select Sample.hello [Sample.rangeIn Sample.nTextA]; Wait 500;
                  Click Sample.nMessageA; Wait 500]) by (repeat constructor).
  split; [exact Hn|]. exact (no_notification_no_pass _ Hn).
Defined.

Lemma afterUnmount_noNotification (es : list Event) :
  Forall afterUnmount es -> Forall noNotification es.
Proof. intros H. apply (Forall_impl _ _ _ H). by intros []. Qed.

Lemma cleanup_no_timer (w : World) :
  timersTracked w -> timers (clock (cleanup w)) = [] /\ hook (cleanup w) = hook w
                     /\ document (cleanup w) = document w.
Proof.
  intros Ht. unfold cleanup.
  destruct (selectionTimeoutRef (hook w)) as [id|] eqn:Href; simpl.
  - split; [|done]. apply filter_none. intros tm Htm. specialize (Ht tm Htm).
    rewrite Href in Ht. injection Ht as ->. by rewrite Pos.eqb_refl.
  - split; [|done]. destruct (timers (clock w)) as [|tm l] eqn:Hl; [done|].
    specialize (Ht tm). rewrite Hl, Href in Ht. discriminate Ht. by left.
Qed.

(** X10. Unmounting stops the hook for good: the cleanup leaves no timer
    pending, and from then on, whatever the browser does and however long one
    waits, the callback never runs and the state is never written again. *)
Theorem cleanup_stops_updates (es es' : list Event) :
  Forall afterUnmount es' ->
  let t := run es init in
  let t' := continue t (cleanup (world t)) in
  timers (clock (world t')) = []
  /\ passes (run es' t') = passes t
  /\ uncaught (run es' t') = uncaught t
  /\ hook (world (run es' t')) = hook (world t).
Proof.
  intros Hau t t'.
  assert (Ht : timersTracked (world t)) by (apply run_timersTracked; intros tm []).
  destruct (cleanup_no_timer (world t) Ht) as (Hnil & Hh & _).
  destruct (quiet_run es' t' (afterUnmount_noNotification es' Hau) Hnil) as (_ & Hp & _ & Hu).
  destruct (Hu Hau) as [Hh' Hu']. split; [exact Hnil|]. split; [exact Hp|].
  split; [exact Hu'|]. by rewrite Hh'.
Qed.

Lemma cleanup_stops_updates_witness :
  let later := [Wait 1000; Select Sample.hello [Sample.rangeIn Sample.nTextB]; Wait 1000] in
  let t := run pendingRun init in
  let t' := continue t (cleanup (world t)) in
  Forall afterUnmount later
  /\ timers (clock (world t)) = [{| timerId := 1; due := 100 |}]
  /\ timers (clock (world t')) = []
  /\ passes (run later t') = []
  /\ selection (hook (world (run later t'))) = emptySelection.
Proof.
  assert (Hau : Forall afterUnmount
                  [Wait 1000; Select Sample.hello [Sample.rangeIn Sample.nTextB]; Wait 1000])
    by (repeat constructor).
  destruct (cleanup_stops_updates pendingRun _ Hau) as (Hnil & Hp & _ & Hh).
  cbv zeta. split; [exact Hau|]. split; [vm_compute; reflexivity|].
  split; [exact Hnil|]. split.
  - etransitivity; [exact Hp|]. vm_compute. reflexivity.
  - etransitivity; [exact (f_equal selection Hh)|]. vm_compute. reflexivity.
Defined.

(** *** Counting passes *)

(** With one timer pending, waiting up to its due time or longer runs the
    callback once, on the world as it is. *)
Lemma wait_fires (d : nat) (t : Trace) (tm : Timer) :
  timers (clock (world t)) = [tm] ->
  now (clock (world t)) < due tm <= now (clock (world t)) + d ->
  let t' := Nat.iter d tick t in
  passes t' = passes t ++ [readSelection (world t)]
  /\ hook (world t') = hook (settled (world t))
  /\ document (world t') = document (settled (world t))
  /\ timers (clock (world t')) = [].
Proof.
  intros Htm [Hlo Hhi] t'. unfold t'.
  set (k := due tm - now (clock (world t)) - 1).
  replace d with ((d - (k + 1)) + (1 + k)) by lia.
  rewrite Nat.iter_add, Nat.iter_add.
  rewrite (ticks_quiet k t) by (rewrite Htm; intros x [<-|[]]; lia).
  change (Nat.iter 1 tick ?x) with (tick x).
  erewrite tick_fires; [|simpl; exact Htm|simpl; lia].
  unfold fire. simpl world. rewrite !onSelectionTimeout_withClock. unfold settled.
  destruct (onSelectionTimeout (world t)) as [w'|e]; simpl handled;
    (rewrite ticks_quiet; [|simpl; intros x []]); simpl; repeat split.
Qed.

Lemma notify_then_settle (s : Sel) (gap : nat) (t : Trace) :
  timersTracked (world t) ->
  100 <= gap ->
  let t' := run (notify s ++ [Wait gap]) t in
  length (passes t') = S (length (passes t))
  /\ timersTracked (world t').
Proof.
  intros Ht Hgap t'. unfold t'. rewrite run_app, (notify_arms s t Ht).
  unfold run. simpl fold_left. unfold step.
  match goal with
  | |- context [Nat.iter gap tick ?x] =>
      destruct (wait_fires gap x {| timerId := nextTimerId (clock (world t));
                                    due := now (clock (world t)) + 100 |})
        as (Hp & _ & _ & Hnil)
  end; [reflexivity|simpl; lia|].
  split.
  - rewrite Hp, length_app. simpl. lia.
  - intros tm. rewrite Hnil. intros [].
Qed.

Lemma settledCount_cons (s : Sel) (gap : nat) (b : list (Sel * nat)) :
  settledCount ((s, gap) :: b) = (if 100 <=? gap then 1 else 0) + settledCount b.
Proof. unfold settledCount. cbn [List.filter snd]. by destruct (100 <=? gap). Qed.

(** X11. The number of validation passes a burst causes is the number of its
    notifications that are followed by 100 ms or more without another one:
    every such notification gets its own pass, every other one gets none. *)
Theorem burst_pass_count (es : list Event) (b : list (Sel * nat)) :
  let t := run es init in
  length (passes (run (burst b) t)) = length (passes t) + settledCount b.
Proof.
  intros t. assert (Ht : timersTracked (world t)) by (apply run_timersTracked; intros tm []).
  revert Ht. generalize t. clear t.
  induction b as [|[s gap] b IH]; intros t Ht; [unfold settledCount; simpl; lia|].
  change (burst ((s, gap) :: b)) with ((notify s ++ [Wait gap]) ++ burst b).
  rewrite run_app, settledCount_cons.
  destruct (Nat.leb_spec 100 gap) as [Hge|Hlt].
  - destruct (notify_then_settle s gap t Ht Hge) as [Hp Ht'].
    rewrite (IH _ Ht'), Hp. lia.
  - destruct (notify_then_wait s gap t Ht Hlt) as (Hp & _ & _ & _ & Ht').
    rewrite (IH _ Ht'), Hp. lia.
Qed.

(** *** What a valid state holds *)

(** X12. When the callback stores a valid state in a run, the stored text is the
    trim of the selected text, the stored rectangle is the one the selection's
    first range reports at that moment, and the stored range is a new object
    equal to that first range but distinct from it. *)
Theorem valid_state_is_snapshot (es : list Event) (w' : World) :
  let w := world (run es init) in
  onSelectionTimeout w = Ok w' ->
  isValid (selection (hook w')) = true ->
  exists live r rid,
    getRangeAt0 w = Ok (live, r)
    /\ text (selection (hook w')) = JSString.trim (liveText (document w))
    /\ boundingRect (selection (hook w')) = Some (getBoundingClientRect r)
    /\ range (selection (hook w')) = Some rid
    /\ rid <> live
    /\ ranges (document w') !! rid = Some r
    /\ ranges (document w') !! live = Some r.
Proof.
  intros w Hr Hv.
  assert (Hf : rangesFresh w) by (apply run_rangesFresh; split; [intros id []|done]).
  destruct Hf as [Hl _].
  destruct (onSelectionTimeout_cases _ _ Hr) as [->|(live & r & Hg & _ & ->)]; [done|].
  exists live, r, (nextRangeId (document w)).
  assert (Hlive : In live (liveRanges (document w)) /\ ranges (document w) !! live = Some r).
  { unfold getRangeAt0 in Hg. destruct (liveRanges (document w)) as [|id ids]; [done|].
    destruct (ranges (document w) !! id) as [r'|] eqn:Hid; [|done].
    injection Hg as <- <-. split; [by left|done]. }
  destruct Hlive as [Hin Hlook]. specialize (Hl live Hin).
  split; [done|]. split; [done|]. split; [done|]. split; [done|].
  split; [lia|]. unfold cloneRange. simpl. split.
  - apply lookup_insert_eq.
  - rewrite lookup_insert_ne by lia. exact Hlook.
Qed.

Lemma valid_state_is_snapshot_witness :
  let w := world (run [Select Sample.hello [Sample.rangeIn Sample.nTextA]] init) in
  exists live r rid,
    getRangeAt0 w = Ok (live, r)
    /\ text (selection (hook (settled w))) = JSString.trim (liveText (document w))
    /\ boundingRect (selection (hook (settled w))) = Some (getBoundingClientRect r)
    /\ range (selection (hook (settled w))) = Some rid
    /\ rid <> live
    /\ ranges (document (settled w)) !! rid = Some r
    /\ ranges (document (settled w)) !! live = Some r.
Proof.
  apply (valid_state_is_snapshot [Select Sample.hello [Sample.rangeIn Sample.nTextA]]);
    vm_compute; reflexivity.
Defined.

(** X13. In every run the button is rendered exactly when the state is valid: a
    valid state always carries the rectangle the component needs. *)
Theorem button_shown_iff_valid (es : list Event) (viewportWidth viewportHeight : float) :
  let s := selection (hook (world (run es init))) in
  is_Some (FollowUpButton.render viewportWidth viewportHeight s) <-> isValid s = true.
Proof.
  assert (H : stateOk (selection (hook (world (run es init)))))
    by (apply run_stateOk; by left).
  simpl. unfold FollowUpButton.render.
  destruct H as [->|(Hv & _ & [b Hb] & _)]; simpl.
  - split; [by intros [? ?]|done].
  - rewrite Hv, Hb. split; [done|]. intros _. by eexists.
Qed.

(** * Further properties of the button *)

Section Click.

Import FollowUpButton.

Lemma followUpText_length (s : SelectionState) :
  length (followUpText s) = 16 + length (text s).
Proof.
  unfold followUpText, quote. rewrite !length_app. simpl. lia.
Qed.

(** X15. When no outside call throws, [handleClick] dispatches the payload
    [Follow up on: "<text>"], then, if the text area is found, focuses it and
    queues the caret placement at the end of the payload (16 code units more
    than the text), then calls [onFollowUp] if one was given; with no text area
    the dispatch and the hook still happen and nothing is queued. *)
Theorem handleClick_all_well (withTextarea withHook : bool) (s : SelectionState) (l : Log) :
  handleClick (envQuiet withTextarea withHook) s l
  = (Ok tt,
     {| effects := effects l
                   ++ [Dispatched (JSString.lit "Follow up on: " ++ [34%N] ++ text s ++ [34%N])]
                   ++ (if withTextarea then [Focused] else [])
                   ++ (if withHook then [FollowedUp] else []);
        queued := queued l
                  ++ (if withTextarea
                      then [PlaceCaret (16 + length (text s)) (16 + length (text s))]
                      else []) |}).
Proof.
  rewrite <- (followUpText_length s).
  change (JSString.lit "Follow up on: " ++ [34%N] ++ text s ++ [34%N]) with (followUpText s).
  unfold handleClick. cbv zeta. generalize (followUpText s). intros payload.
  destruct withTextarea, withHook;
    unfold tryCatch, mbind, Eff_bind, call, emit, queue, mret, Eff_ret; simpl;
    rewrite <- ?app_assoc, ?app_nil_r; reflexivity.
Qed.

(** X17. When the dispatch throws, or the focus does, the error is written with
    [console.error] and the rest is skipped: no caret placement is queued and
    [onFollowUp] is not called, so the owner is not told to clear the
    selection. *)
Theorem handleClick_failure_skips_rest (env : Env) (s : SelectionState) (l : Log) (e : JSError) :
  dispatchEvent env (followUpText s) = Throw e
  \/ (dispatchEvent env (followUpText s) = Ok tt
      /\ textarea env = Some tt /\ focus env = Throw e) ->
  handleClick env s l
  = (Ok tt,
     {| effects := effects l
                   ++ match dispatchEvent env (followUpText s) with
                      | Ok _ => [Dispatched (followUpText s)]
                      | Throw _ => []
                      end
                   ++ [ConsoleError "Error handling follow-up button click:" e];
        queued := queued l |}).
Proof.
  unfold handleClick. cbv zeta. generalize (followUpText s). intros payload.
  intros [Hd|(Hd & Ht & Hf)];
    unfold tryCatch, mbind, Eff_bind, call, emit; rewrite Hd; simpl.
  - reflexivity.
  - rewrite Ht, Hf. simpl. by rewrite <- app_assoc.
Qed.

Lemma handleClick_failure_skips_rest_witness :
  let s := validState (JSString.lit "selected text") rectNearCorner in
  handleClick envFocusThrows s emptyLog
  = (Ok tt,
     {| effects := [Dispatched (followUpText s);
                    ConsoleError "Error handling follow-up button click:" (Raised "focus")];
        queued := [] |}).
Proof.
  exact (handleClick_failure_skips_rest envFocusThrows
           (validState (JSString.lit "selected text") rectNearCorner) emptyLog
           (Raised "focus") (or_intror (conj eq_refl (conj eq_refl eq_refl)))).
Defined.

End Click.

Lemma validateSelection_never_accepts_split_witness :
  validateSelection Sample.hello (Some rangeSplitNoAncestor) <> Ok true.
Proof.
  apply (validateSelection_never_accepts_split Sample.hello rangeSplitNoAncestor
           (Some Sample.nMessageA)
           (Some (Sample.at_ [Sample.body; Sample.html; Sample.doc] Sample.messageB)));
    reflexivity.
Defined.

(** * The validation only reads *)

Lemma omap_ext_in {A B} (f g : A -> option B) (l : list A) :
  (forall x, In x l -> f x = g x) -> omap f l = omap g l.
Proof.
  induction l as [|a l IH]; intros H; [done|]. csimpl.
  rewrite (H a) by (by left). rewrite IH; [done|]. intros x Hx. apply H. by right.
Qed.

Lemma run_passive_keeps (txt : JSString.t) (ids : list positive) (next0 : positive)
    (h0 : gmap positive Range) (es : list Event) (t : Trace) :
  Forall passive es ->
  (liveText (document (world t)) = txt
   /\ liveRanges (document (world t)) = ids
   /\ (next0 <= nextRangeId (document (world t)))%positive
   /\ forall id, (id < next0)%positive -> ranges (document (world t)) !! id = h0 !! id) ->
  liveText (document (world (run es t))) = txt
  /\ liveRanges (document (world (run es t))) = ids
  /\ (next0 <= nextRangeId (document (world (run es t))))%positive
  /\ forall id, (id < next0)%positive -> ranges (document (world (run es t))) !! id = h0 !! id.
Proof.
  apply (run_invariant passive
           (fun w => liveText (document w) = txt
                     /\ liveRanges (document w) = ids
                     /\ (next0 <= nextRangeId (document w))%positive
                     /\ forall id, (id < next0)%positive ->
                          ranges (document w) !! id = h0 !! id)).
  - by intros txt' rs w [].
  - by intros f txt' w [].
  - by intros n w [].
  - intros w _ H. by rewrite (proj2 (handleSelectionChange_selection w)).
  - by intros target w [].
  - by intros w [].
  - intros _ w _ H. exact H.
  - intros _ w w' _ (Htxt & Hids & Hnext & Hh) Hr.
    destruct (onSelectionTimeout_cases _ _ Hr) as [->|(live & r & _ & _ & ->)]; [done|].
    unfold cloneRange. simpl. split; [done|]. split; [done|]. split; [lia|].
    intros id Hid. rewrite lookup_insert_ne by lia. by apply Hh.
Qed.

(** X19. Debouncing and validating only read the document selection: over any
    stretch of notifications and waiting, what [window.getSelection()] shows
    (its text, its ranges and their contents) stays what it was. The hook works
    on a clone and never changes or removes a range of the selection. *)
Theorem validation_only_reads (es es' : list Event) :
  Forall passive es' ->
  let t := run es init in
  readSelection (world (run es' t)) = readSelection (world t).
Proof.
  intros Hp t.
  assert (Hf : rangesFresh (world t)) by (apply run_rangesFresh; split; [intros id []|done]).
  destruct Hf as [Hl _].
  destruct (run_passive_keeps (liveText (document (world t))) (liveRanges (document (world t)))
              (nextRangeId (document (world t))) (ranges (document (world t))) es' t Hp)
    as (Htxt & Hids & _ & Hh); [repeat split; lia|].
  unfold readSelection. rewrite Htxt, Hids. f_equal.
  apply omap_ext_in. intros id Hin. apply Hh. by apply Hl.
Qed.

Lemma validation_only_reads_witness :
  let es' := [Wait 100; SelectionChange; Wait 100] in
  Forall passive es'
  /\ length (passes (run es' (run pendingRun init))) = 2
  /\ readSelection (world (run es' (run pendingRun init)))
     = readSelection (world (run pendingRun init)).
Proof.
  assert (Hp : Forall passive [Wait 100; SelectionChange; Wait 100]) by (repeat constructor).
  split; [exact Hp|]. split; [vm_compute; reflexivity|].
  exact (validation_only_reads pendingRun _ Hp).
Defined.
